(** * Workspace: marker-directory resolution and the manifest store

    A shallow embedding of [internal/pkg/workspace/workspace.go].

    The Go code talks to the disk through [afero.Afero] and to YAML through
    [yaml.v3].  Both are collaborators of the package, not part of it:
    - the file system is modelled by an in-memory tree ([Fs]) keyed by
      absolute, component-wise paths, with POSIX-like error codes and a
      one-bit permission on every node, so that the probes of the code can
      succeed, report absence, or fail with an I/O error;
    - the YAML codec is a [Section] variable.

    Go's multiple results [(v, err)] become [result] values, a bare [error]
    result becomes [option error], and the pointer receiver [ws *Workspace]
    together with the disk is threaded explicitly through every call. *)

From Stdlib Require Import Strings.Ascii Strings.Byte Sorting.Sorted.
From stdpp Require Import base option list strings gmap fin_maps sorting.

Local Open Scope string_scope.
Local Open Scope list_scope.
Local Open Scope stdpp_scope.

(** ** Paths *)

(** A cleaned absolute path is the list of its components, root first; the
    root directory ["/"] is [[]]. *)
Abbreviation path := (list string) (only parsing).

Module filepath.

(** strings.Split(s, "/"), accumulating the current component in [cur] *)
Fixpoint split_slash (cur s : string) : list string :=
  match s with
  | EmptyString => [cur]
  | String c s' =>
      if Ascii.eqb c "/"%char then cur :: split_slash "" s'
      else split_slash (cur +:+ String c "") s'
  end.

(** One step of the lexical clean-up of [filepath.Clean] on a rooted path:
    empty and ["."] components vanish, [".."] removes the component before
    it (and is dropped at the root). *)
Definition clean_step (acc : path) (c : string) : path :=
  if decide (c = "" ∨ c = ".") then acc
  else if decide (c = "..") then removelast acc
  else acc ++ [c].

Definition Clean (p : list string) : path := fold_left clean_step p [].

(** filepath.Join(base, elem...) for a rooted [base] *)
Definition Join (base : path) (elem : list string) : path :=
  Clean (base ++ flat_map (split_slash "") elem).

(** filepath.Base and filepath.Dir on a cleaned rooted path *)
Definition Base (p : path) : string := List.last p "/".
Definition Dir (p : path) : path := removelast p.

(** The text of a rooted path, as [%s] prints it. *)
Definition String (p : path) : string :=
  match p with
  | [] => "/"
  | _ => fold_right (λ c acc, "/" +:+ c +:+ acc) "" p
  end.

(** filepath.Dir on a relative name: ["."] when the name has no separator,
    which is the only case the package reaches (a directory entry's name);
    otherwise the text before the last separator. *)
Definition Dir_rel (name : string) : string :=
  match removelast (split_slash "" name) with
  | [] => "."
  | c :: cs => fold_left (λ acc x, acc +:+ "/" +:+ x) cs c
  end.

End filepath.

(** ** Errors *)

Inductive Errno :=
  ENOENT | EEXIST | ENOTDIR | EISDIR | EACCES | ENOTEMPTY | EBUSY.

#[global] Instance Errno_eq_dec : EqDecision Errno.
Proof. solve_decision. Defined.

(** Modelled from the spec: the error structs [errWorkspaceNotFound],
    [errNoAssociatedApplication], [errHasExistingApplication],
    [ErrFileExists] and [ErrNoPipelineInWorkspace], which the package
    declares in its errors file, not among the sources.  Their fields are
    the ones the code fills and the error taxonomy names.  [PathError] is
    the error of a file-system call, [codecError] that of the codec, and
    [Errorf] is fmt.Errorf wrapping an error with [%w]. *)
Inductive error :=
  | PathError (e : Errno) (p : path)
  | errWorkspaceNotFound (CurrentDirectory : path)
      (ManifestDirectoryName : string) (NumberOfLevelsChecked : nat)
  | errNoAssociatedApplication
  | errHasExistingApplication (existingAppName : string)
  | ErrFileExists (FileName : path)
  | ErrDockerfileNotFound (dir : path)
  | ErrNoPipelineInWorkspace
  | codecError (msg : string)
  | Errorf (msg : string) (err : error).

Inductive result (A : Type) :=
  | Ok (a : A)
  | Err (e : error).
Arguments Ok {A} a.
Arguments Err {A} e.

(** os.IsNotExist *)
Definition IsNotExist (e : error) : bool :=
  match e with
  | PathError ENOENT _ => true
  | _ => false
  end.

(** errors.As(err, &notFound) with [notFound *errNoAssociatedApplication] *)
Fixpoint As_errNoAssociatedApplication (e : error) : bool :=
  match e with
  | errNoAssociatedApplication => true
  | Errorf _ e' => As_errNoAssociatedApplication e'
  | _ => false
  end.

(** ** The file system *)

Definition bytes := list Byte.byte.

(** A node is a regular file with its content or a directory.  The flag is
    the permission of the calling user: on a file, to read and write its
    content; on a directory, to search, list and modify it. *)
Inductive node :=
  | File (perm : bool) (data : bytes)
  | Dir (perm : bool).

Definition is_dir (n : node) : bool :=
  match n with Dir _ => true | File _ _ => false end.

Record Fs := mkFs {
  cwd : path;                  (* the working directory of the process *)
  nodes : gmap path node
}.

Definition set_nodes (fs : Fs) (m : gmap path node) : Fs :=
  {| cwd := cwd fs; nodes := m |}.

(** os.FileInfo, as far as the package looks at it *)
Record FileInfo := mkFileInfo { Name : string; IsDir : bool }.

(** Path resolution: every directory on the way must exist and be searchable. *)
Fixpoint walk (m : gmap path node) (pre rest : path) : result node :=
  match m !! pre with
  | None => Err (PathError ENOENT (pre ++ rest))
  | Some n =>
      match rest with
      | [] => Ok n
      | c :: rest' =>
          match n with
          | Dir true => walk m (pre ++ [c]) rest'
          | Dir false => Err (PathError EACCES (pre ++ rest))
          | File _ _ => Err (PathError ENOTDIR (pre ++ rest))
          end
      end
  end.

Definition Stat (fs : Fs) (p : path) : result node := walk (nodes fs) [] p.

(** afero.Exists: [(true, nil)], [(false, nil)] when the path does not exist,
    [(false, err)] on any other error. *)
Definition Exists (fs : Fs) (p : path) : bool * option error :=
  match Stat fs p with
  | Ok _ => (true, None)
  | Err e => if IsNotExist e then (false, None) else (false, Some e)
  end.

(** afero.DirExists *)
Definition DirExists (fs : Fs) (p : path) : bool * option error :=
  match Stat fs p with
  | Ok n => (is_dir n, None)
  | Err e => if IsNotExist e then (false, None) else (false, Some e)
  end.

(** afero.ReadFile *)
Definition ReadFile (fs : Fs) (p : path) : result bytes :=
  match Stat fs p with
  | Ok (File true data) => Ok data
  | Ok (File false _) => Err (PathError EACCES p)
  | Ok (Dir _) => Err (PathError EISDIR p)
  | Err e => Err e
  end.

(** Creating an entry needs a searchable, writable parent directory. *)
Definition create (fs : Fs) (p : path) (n : node) : result Fs :=
  match p with
  | [] => Err (PathError ENOENT p)
  | _ =>
      match Stat fs (filepath.Dir p) with
      | Ok (Dir true) => Ok (set_nodes fs (<[p := n]> (nodes fs)))
      | Ok (Dir false) => Err (PathError EACCES p)
      | Ok (File _ _) => Err (PathError ENOTDIR p)
      | Err e => Err e
      end
  end.

(** afero.WriteFile: open with O_WRONLY|O_CREATE|O_TRUNC, write, close *)
Definition WriteFile (fs : Fs) (p : path) (data : bytes) : result Fs :=
  match Stat fs p with
  | Ok (File true _) => Ok (set_nodes fs (<[p := File true data]> (nodes fs)))
  | Ok (File false _) => Err (PathError EACCES p)
  | Ok (Dir _) => Err (PathError EISDIR p)
  | Err e => if IsNotExist e then create fs p (File true data) else Err e
  end.

(** Fs.Mkdir *)
Definition Mkdir (fs : Fs) (p : path) : result Fs :=
  match Stat fs p with
  | Ok _ => Err (PathError EEXIST p)
  | Err e => if IsNotExist e then create fs p (Dir true) else Err e
  end.

(** os.MkdirAll, by recursion on the reversed path: the fast path returns
    when [p] is already a directory; otherwise the parent is made first and
    then [p] itself.  Directories made before a failure stay on the disk. *)
Fixpoint MkdirAll_rev (fs : Fs) (rp : list string) : option error * Fs :=
  match Stat fs (rev rp) with
  | Ok (Dir _) => (None, fs)
  | Ok (File _ _) => (Some (PathError ENOTDIR (rev rp)), fs)
  | Err _ =>
      match rp with
      | [] =>
          match Mkdir fs [] with
          | Ok fs2 => (None, fs2)
          | Err e => (Some e, fs)
          end
      | _ :: rparent =>
          match MkdirAll_rev fs rparent with
          | (Some e, fs1) => (Some e, fs1)
          | (None, fs1) =>
              match Mkdir fs1 (rev rp) with
              | Ok fs2 => (None, fs2)
              | Err e =>
                  match Stat fs1 (rev rp) with
                  | Ok (Dir _) => (None, fs1)
                  | _ => (Some e, fs1)
                  end
              end
          end
      end
  end.

Definition MkdirAll (fs : Fs) (p : path) : option error * Fs :=
  MkdirAll_rev fs (rev p).

(** [child_name p k] is [Some c] exactly when [k = p ++ [c]]. *)
Fixpoint child_name (p k : path) : option string :=
  match p, k with
  | [], [c] => Some c
  | a :: p', b :: k' => if decide (a = b) then child_name p' k' else None
  | _, _ => None
  end.

Definition entry_of (p : path) (kn : path * node) : option FileInfo :=
  (λ c, mkFileInfo c (is_dir kn.2)) <$> child_name p kn.1.

(** Insertion sort by a string key, the order being the byte-wise
    lexicographic order of Go's [<] on strings. *)
Fixpoint insert_by {A} (key : A → string) (x : A) (l : list A) : list A :=
  match l with
  | [] => [x]
  | y :: l' =>
      if String.leb (key x) (key y) then x :: l else y :: insert_by key x l'
  end.

Fixpoint sort_by {A} (key : A → string) (l : list A) : list A :=
  match l with
  | [] => []
  | x :: l' => insert_by key x (sort_by key l')
  end.

(** The entries of directory [p], in the order afero.ReadDir returns them:
    sorted by file name. *)
Definition entries (m : gmap path node) (p : path) : list FileInfo :=
  sort_by Name (omap (entry_of p) (map_to_list m)).

(** afero.ReadDir *)
Definition ReadDir (fs : Fs) (p : path) : result (list FileInfo) :=
  match Stat fs p with
  | Ok (Dir true) => Ok (entries (nodes fs) p)
  | Ok (Dir false) => Err (PathError EACCES p)
  | Ok (File _ _) => Err (PathError ENOTDIR p)
  | Err e => Err e
  end.

(** Fs.Remove: unlink a file or remove an empty directory *)
Definition Remove (fs : Fs) (p : path) : result Fs :=
  match p with
  | [] => Err (PathError EBUSY p)
  | _ =>
      match Stat fs p with
      | Ok (File _ _) => Ok (set_nodes fs (delete p (nodes fs)))
      | Ok (Dir _) =>
          match entries (nodes fs) p with
          | [] => Ok (set_nodes fs (delete p (nodes fs)))
          | _ :: _ => Err (PathError ENOTEMPTY p)
          end
      | Err e => Err e
      end
  end.

(** A name that is not rooted is resolved by the operating system against
    the working directory of the process. *)
Definition relative (fs : Fs) (elem : list string) : path :=
  filepath.Join (cwd fs) elem.

(** ** The workspace *)

Definition CopilotDirName := "copilot".
Definition SummaryFileName := ".workspace".
Definition addonsDirName := "addons".
Definition maximumParentDirsToSearch : nat := 5.
Definition pipelineFileName := "pipeline.yml".
Definition manifestFileName := "manifest.yml".
Definition buildspecFileName := "buildspec.yml".
Definition ymlFileExtension := ".yml".
Definition dockerfileName := "Dockerfile".

Record Summary := mkSummary { Application : string }.

(** The struct [Workspace] without its [fsUtils] handle, which is the [Fs]
    passed to every method.  The Go field [copilotDir] is a string whose
    empty value means "not yet found"; no path the code stores there is
    empty, so the field is an [option]. *)
Record Workspace := mkWorkspace {
  workingDir : path;
  copilotDir : option path
}.

Definition set_copilotDir (ws : Workspace) (d : path) : Workspace :=
  {| workingDir := workingDir ws; copilotDir := Some d |}.

(** encoding.BinaryMarshaler: a value is what its MarshalBinary returns. *)
Record BinaryMarshaler := mkMarshaler { MarshalBinary : result bytes }.

(** New: the workspace of the process' working directory. *)
Definition New (fs : Fs) : Workspace :=
  {| workingDir := cwd fs; copilotDir := None |}.

(** The [for try := 0; try < maximumParentDirsToSearch; try++] loop of
    CopilotDirPath with [tries] iterations left: [Ok None] is the loop
    running out. *)
Fixpoint searchParents (fs : Fs) (tries : nat) (searchingDir : path)
  : result (option path) :=
  match tries with
  | 0 => Ok None
  | S tries' =>
      let currentDirectoryPath := filepath.Join searchingDir [CopilotDirName] in
      match DirExists fs currentDirectoryPath with
      | (_, Some err) => Err err
      | (true, None) => Ok (Some currentDirectoryPath)
      | (false, None) => searchParents fs tries' (filepath.Dir searchingDir)
      end
  end.

Definition CopilotDirPath (ws : Workspace) (fs : Fs)
  : result path * Workspace :=
  match copilotDir ws with
  | Some d => (Ok d, ws)
  | None =>
      if decide (filepath.Base (workingDir ws) = CopilotDirName) then
        (Ok (workingDir ws), set_copilotDir ws (workingDir ws))
      else
        match searchParents fs maximumParentDirsToSearch (workingDir ws) with
        | Err err => (Err err, ws)
        | Ok (Some d) => (Ok d, set_copilotDir ws d)
        | Ok None =>
            (Err (errWorkspaceNotFound (workingDir ws) CopilotDirName
                    maximumParentDirsToSearch), ws)
        end
  end.

Definition pipelineManifestPath (ws : Workspace) (fs : Fs)
  : result path * Workspace :=
  let '(r, ws) := CopilotDirPath ws fs in
  match r with
  | Err err => (Err err, ws)
  | Ok copilotPath => (Ok (filepath.Join copilotPath [pipelineFileName]), ws)
  end.

Definition summaryPath (ws : Workspace) (fs : Fs) : result path * Workspace :=
  let '(r, ws) := CopilotDirPath ws fs in
  match r with
  | Err err => (Err err, ws)
  | Ok copilotPath => (Ok (filepath.Join copilotPath [SummaryFileName]), ws)
  end.

Definition createCopilotDir (ws : Workspace) (fs : Fs)
  : option error * Workspace * Fs :=
  let '(existingWorkspace, ws) := CopilotDirPath ws fs in
  match existingWorkspace with
  | Ok _ => (None, ws, fs)
  | Err _ =>
      match Mkdir fs (relative fs [CopilotDirName]) with
      | Ok fs => (None, ws, fs)
      | Err err => (Some err, ws, fs)
      end
  end.

(** write flushes the data to a file under the copilot directory. *)
Definition write (data : bytes) (elem : list string) (ws : Workspace) (fs : Fs)
  : result path * Workspace * Fs :=
  let '(r, ws) := CopilotDirPath ws fs in
  match r with
  | Err err => (Err err, ws, fs)
  | Ok copilotPath =>
      let filename := filepath.Join copilotPath elem in
      match MkdirAll fs (filepath.Dir filename) with
      | (Some err, fs) =>
          (Err (Errorf ("create directories for file " +:+
                          filepath.String filename) err), ws, fs)
      | (None, fs) =>
          match Exists fs filename with
          | (_, Some err) =>
              (Err (Errorf ("check if manifest file " +:+
                              filepath.String filename +:+ " exists") err),
               ws, fs)
          | (true, None) => (Err (ErrFileExists filename), ws, fs)
          | (false, None) =>
              match WriteFile fs filename data with
              | Err err => (Err (Errorf "write manifest file" err), ws, fs)
              | Ok fs => (Ok filename, ws, fs)
              end
          end
      end
  end.

(** read returns the contents of the file under the copilot directory. *)
Definition read (elem : list string) (ws : Workspace) (fs : Fs)
  : result bytes * Workspace :=
  let '(r, ws) := CopilotDirPath ws fs in
  match r with
  | Err err => (Err err, ws)
  | Ok copilotPath => (ReadFile fs (filepath.Join copilotPath elem), ws)
  end.

Definition readWorkloadManifest (name : string) (ws : Workspace) (fs : Fs)
  : result bytes * Workspace :=
  read [name; manifestFileName] ws fs.

Definition ReadServiceManifest (name : string) (ws : Workspace) (fs : Fs)
  : result bytes * Workspace :=
  let '(r, ws) := readWorkloadManifest name ws fs in
  match r with
  | Err err =>
      (Err (Errorf ("read service " +:+ name +:+ " manifest file") err), ws)
  | Ok mf => (Ok mf, ws)
  end.

Definition ReadJobManifest (name : string) (ws : Workspace) (fs : Fs)
  : result bytes * Workspace :=
  let '(r, ws) := readWorkloadManifest name ws fs in
  match r with
  | Err err =>
      (Err (Errorf ("read job " +:+ name +:+ " manifest file") err), ws)
  | Ok mf => (Ok mf, ws)
  end.

Definition WriteServiceManifest (marshaler : BinaryMarshaler) (name : string)
    (ws : Workspace) (fs : Fs) : result path * Workspace * Fs :=
  match MarshalBinary marshaler with
  | Err err =>
      (Err (Errorf ("marshal service " +:+ name +:+ " manifest to binary")
              err), ws, fs)
  | Ok data => write data [name; manifestFileName] ws fs
  end.

Definition WriteJobManifest (marshaler : BinaryMarshaler) (name : string)
    (ws : Workspace) (fs : Fs) : result path * Workspace * Fs :=
  match MarshalBinary marshaler with
  | Err err =>
      (Err (Errorf ("marshal job " +:+ name +:+ " manifest to binary") err),
       ws, fs)
  | Ok data => write data [name; manifestFileName] ws fs
  end.

(** ReadPipelineManifest returns the contents of the pipeline manifest. *)
Definition ReadPipelineManifest (ws : Workspace) (fs : Fs)
  : result bytes * Workspace :=
  let '(r, ws) := pipelineManifestPath ws fs in
  match r with
  | Err err => (Err err, ws)
  | Ok pmPath =>
      match Exists fs pmPath with
      | (_, Some err) => (Err err, ws)
      | (false, None) => (Err ErrNoPipelineInWorkspace, ws)
      | (true, None) => read [pipelineFileName] ws fs
      end
  end.

Definition WritePipelineBuildspec (marshaler : BinaryMarshaler)
    (ws : Workspace) (fs : Fs) : result path * Workspace * Fs :=
  match MarshalBinary marshaler with
  | Err err =>
      (Err (Errorf "marshal pipeline buildspec to binary" err), ws, fs)
  | Ok data => write data [buildspecFileName] ws fs
  end.

Definition WritePipelineManifest (marshaler : BinaryMarshaler)
    (ws : Workspace) (fs : Fs) : result path * Workspace * Fs :=
  match MarshalBinary marshaler with
  | Err err =>
      (Err (Errorf "marshal pipeline manifest to binary" err), ws, fs)
  | Ok data => write data [pipelineFileName] ws fs
  end.

(** DeleteWorkspaceFile: the name it removes is not rooted. *)
Definition DeleteWorkspaceFile (ws : Workspace) (fs : Fs) : option error * Fs :=
  match Remove fs (relative fs [CopilotDirName; SummaryFileName]) with
  | Ok fs => (None, fs)
  | Err err => (Some err, fs)
  end.

(** ReadAddonsDir returns the file names under a service's addons directory. *)
Definition ReadAddonsDir (svcName : string) (ws : Workspace) (fs : Fs)
  : result (list string) * Workspace :=
  let '(r, ws) := CopilotDirPath ws fs in
  match r with
  | Err err => (Err err, ws)
  | Ok copilotPath =>
      match ReadDir fs (filepath.Join copilotPath [svcName; addonsDirName]) with
      | Err err => (Err err, ws)
      | Ok files => (Ok (map Name files), ws)
      end
  end.

Definition ReadAddon (svc fname : string) (ws : Workspace) (fs : Fs)
  : result bytes * Workspace :=
  read [svc; addonsDirName; fname] ws fs.

Definition WriteAddon (content : BinaryMarshaler) (svc name : string)
    (ws : Workspace) (fs : Fs) : result path * Workspace * Fs :=
  match MarshalBinary content with
  | Err err => (Err (Errorf "marshal binary addon content" err), ws, fs)
  | Ok data =>
      let fname := name +:+ ymlFileExtension in
      write data [svc; addonsDirName; fname] ws fs
  end.

(** IsInGitRepository, for the [FileStat] that is the disk: the name
    ".git" is not rooted. *)
Definition IsInGitRepository (fs : Fs) : bool :=
  match Stat fs (relative fs [".git"]) with
  | Ok _ => true
  | Err err => negb (IsNotExist err)
  end.

(** The inner loop of ListDockerfiles over the entries of one sub-directory. *)
Fixpoint scanSubFiles (subFiles : list FileInfo) (wdFileName : string)
    (directories : list string) : list string :=
  match subFiles with
  | [] => directories
  | f :: rest =>
      if IsDir f then scanSubFiles rest wdFileName directories
      else if decide (Name f = dockerfileName)
        then scanSubFiles rest wdFileName (directories ++ [wdFileName])
        else scanSubFiles rest wdFileName directories
  end.

(** The outer loop of ListDockerfiles over the entries of the working
    directory.  A sub-directory is read under its bare name. *)
Fixpoint scanWdFiles (fs : Fs) (wdFiles : list FileInfo)
    (directories : list string) : result (list string) :=
  match wdFiles with
  | [] => Ok directories
  | wdFile :: rest =>
      if negb (IsDir wdFile) then
        if decide (Name wdFile = dockerfileName)
        then scanWdFiles fs rest
               (directories ++ [filepath.Dir_rel (Name wdFile)])
        else scanWdFiles fs rest directories
      else
        match ReadDir fs (relative fs [Name wdFile]) with
        | Err err => Err (Errorf "read directory" err)
        | Ok subFiles =>
            scanWdFiles fs rest
              (scanSubFiles subFiles (Name wdFile) directories)
        end
  end.

Definition ListDockerfiles (ws : Workspace) (fs : Fs) : result (list string) :=
  match ReadDir fs (workingDir ws) with
  | Err err => Err (Errorf "read directory" err)
  | Ok wdFiles =>
      match scanWdFiles fs wdFiles [] with
      | Err err => Err err
      | Ok directories =>
          if decide (length directories = 0) then
            Err (ErrDockerfileNotFound (workingDir ws))
          else
            Ok (map (λ dir, dir +:+ "/" +:+ dockerfileName)
                    (sort_by id directories))
      end
  end.

Section Codec.

(** yaml.Marshal and yaml.Unmarshal at the two types the package decodes:
    the summary record and the [type] field of a workload manifest. *)
Variable yamlMarshalSummary : Summary → result bytes.
Variable yamlUnmarshalSummary : bytes → result Summary.
Variable yamlUnmarshalType : bytes → result string.

(** The method Summary of Workspace (the record has the plain name):
    Summary returns a summary of the workspace. *)
Definition Workspace_Summary (ws : Workspace) (fs : Fs)
  : result Summary * Workspace :=
  let '(r, ws) := summaryPath ws fs in
  match r with
  | Err err => (Err err, ws)
  | Ok summaryPath =>
      let '(summaryFileExists, _) := Exists fs summaryPath in
      if summaryFileExists then
        match ReadFile fs summaryPath with
        | Err err => (Err err, ws)
        | Ok value => (yamlUnmarshalSummary value, ws)
        end
      else (Err errNoAssociatedApplication, ws)
  end.

Definition writeSummary (appName : string) (ws : Workspace) (fs : Fs)
  : option error * Workspace * Fs :=
  let '(r, ws) := summaryPath ws fs in
  match r with
  | Err err => (Some err, ws, fs)
  | Ok summaryPath =>
      let workspaceSummary := {| Application := appName |} in
      match yamlMarshalSummary workspaceSummary with
      | Err err => (Some err, ws, fs)
      | Ok serializedWorkspaceSummary =>
          match WriteFile fs summaryPath serializedWorkspaceSummary with
          | Ok fs => (None, ws, fs)
          | Err err => (Some err, ws, fs)
          end
      end
  end.

(** Create creates the copilot directory (if it doesn't already exist) and
    saves a summary with the application name. *)
Definition Create (appName : string) (ws : Workspace) (fs : Fs)
  : option error * Workspace * Fs :=
  match createCopilotDir ws fs with
  | (Some err, ws, fs) => (Some err, ws, fs)
  | (None, ws, fs) =>
      let '(r, ws) := Workspace_Summary ws fs in
      match r with
      | Ok summary =>
          if decide (Application summary ≠ appName) then
            (Some (errHasExistingApplication (Application summary)), ws, fs)
          else (None, ws, fs)
      | Err err =>
          if As_errNoAssociatedApplication err then writeSummary appName ws fs
          else (Some err, ws, fs)
      end
  end.

Definition readWorkloadType (dat : bytes) : result string :=
  yamlUnmarshalType dat.

(** The loop of workloadNames over the entries of the copilot directory. *)
Fixpoint workloadNamesLoop (match_ : string → bool) (copilotPath : path)
    (files : list FileInfo) (names : list string) (ws : Workspace) (fs : Fs)
  : result (list string) * Workspace :=
  match files with
  | [] => (Ok names, ws)
  | f :: rest =>
      if negb (IsDir f) then
        workloadNamesLoop match_ copilotPath rest names ws fs
      else
        let '(exists_, _) :=
          Exists fs (filepath.Join copilotPath [Name f; manifestFileName]) in
        if negb exists_ then
          workloadNamesLoop match_ copilotPath rest names ws fs
        else
          let '(r, ws) := readWorkloadManifest (Name f) ws fs in
          match r with
          | Err err =>
              (Err (Errorf ("read manifest for workload " +:+ Name f) err),
               ws)
          | Ok manifestBytes =>
              match readWorkloadType manifestBytes with
              | Err err => (Err err, ws)
              | Ok wlType =>
                  if match_ wlType then
                    workloadNamesLoop match_ copilotPath rest
                      (names ++ [Name f]) ws fs
                  else workloadNamesLoop match_ copilotPath rest names ws fs
              end
          end
  end.

(** workloadNames returns the name of all workloads in the workspace. *)
Definition workloadNames (match_ : string → bool) (ws : Workspace) (fs : Fs)
  : result (list string) * Workspace :=
  let '(r, ws) := CopilotDirPath ws fs in
  match r with
  | Err err => (Err err, ws)
  | Ok copilotPath =>
      match ReadDir fs copilotPath with
      | Err err =>
          (Err (Errorf ("read directory " +:+ filepath.String copilotPath)
                  err), ws)
      | Ok files => workloadNamesLoop match_ copilotPath files [] ws fs
      end
  end.

(** manifest.ServiceTypes and manifest.JobTypes belong to another package. *)
Variables ServiceTypes JobTypes : list string.

Definition ServiceNames (ws : Workspace) (fs : Fs)
  : result (list string) * Workspace :=
  workloadNames (λ wlType, existsb (String.eqb wlType) ServiceTypes) ws fs.

Definition JobNames (ws : Workspace) (fs : Fs)
  : result (list string) * Workspace :=
  workloadNames (λ wlType, existsb (String.eqb wlType) JobTypes) ws fs.

End Codec.

(** ** A miniature codec and a few disks, for the executable examples *)

Module yaml.

Definition newline : ascii := Ascii.ascii_of_nat 10.

Fixpoint strip_prefix (pre s : string) : option string :=
  match pre, s with
  | EmptyString, _ => Some s
  | String a pre', String b s' =>
      if Ascii.eqb a b then strip_prefix pre' s' else None
  | _, _ => None
  end.

Fixpoint first_line (s : string) : string :=
  match s with
  | EmptyString => EmptyString
  | String c s' => if Ascii.eqb c newline then EmptyString
                   else String c (first_line s')
  end.

(** the value of a one-key document ["key: value\n"] *)
Definition field (key : string) (dat : bytes) : result string :=
  match strip_prefix (key +:+ ": ") (String.string_of_list_byte dat) with
  | Some rest => Ok (first_line rest)
  | None => Err (codecError "yaml: unmarshal errors")
  end.

Definition MarshalSummary (s : Summary) : result bytes :=
  Ok (String.list_byte_of_string
        ("application: " +:+ Application s +:+ String newline "")).

Definition UnmarshalSummary (dat : bytes) : result Summary :=
  match field "application" dat with
  | Ok v => Ok {| Application := v |}
  | Err e => Err e
  end.

Definition UnmarshalType (dat : bytes) : result string := field "type" dat.

End yaml.

Definition disk (wd : path) (content : list (path * node)) : Fs :=
  {| cwd := wd; nodes := list_to_map content |}.

Definition text (s : string) : bytes := String.list_byte_of_string s.

(** One line of text, terminated as the codec terminates it. *)
Definition line (s : string) : bytes := text (s +:+ String yaml.newline "").

Definition payload (s : string) : BinaryMarshaler := mkMarshaler (Ok (text s)).

(** A project directory in which nothing has been initialised yet. *)
Definition disk_fresh : Fs :=
  disk ["proj"] [([], Dir true); (["proj"], Dir true)].

(** The same with an empty copilot directory. *)
Definition disk_project : Fs :=
  disk ["proj"]
    [([], Dir true); (["proj"], Dir true); (["proj"; "copilot"], Dir true)].

(** A project associated with "acme", the process running in proj/src. *)
Definition disk_in_src : Fs :=
  disk ["proj"; "src"]
    [([], Dir true); (["proj"], Dir true); (["proj"; "src"], Dir true);
     (["proj"; "copilot"], Dir true);
     (["proj"; "copilot"; ".workspace"], File true (line "application: acme"));
     (["proj"; "copilot"; "api"], Dir true);
     (["proj"; "copilot"; "api"; "manifest.yml"], File true (line "type: X"))].

(** A copilot directory the user may not search. *)
Definition disk_locked : Fs :=
  disk ["proj"]
    [([], Dir true); (["proj"], Dir true); (["proj"; "copilot"], Dir false);
     (["proj"; "copilot"; ".workspace"], File true (line "application: acme"))].

(** Workloads a, b, c of types X, Y, X, and a directory without manifest. *)
Definition workloads : list (path * node) :=
  [([], Dir true); (["proj"], Dir true); (["proj"; "copilot"], Dir true);
   (["proj"; "copilot"; ".workspace"], File true (line "application: acme"));
   (["proj"; "copilot"; "a"], Dir true);
   (["proj"; "copilot"; "a"; "manifest.yml"], File true (line "type: X"));
   (["proj"; "copilot"; "b"], Dir true);
   (["proj"; "copilot"; "b"; "manifest.yml"], File true (line "type: Y"));
   (["proj"; "copilot"; "c"], Dir true);
   (["proj"; "copilot"; "c"; "manifest.yml"], File true (line "type: X"));
   (["proj"; "copilot"; "docs"], Dir true)].

Definition disk_workloads : Fs := disk ["proj"] workloads.

(** The same, and a workload whose manifest exists but may not be read. *)
Definition disk_unreadable : Fs :=
  disk ["proj"]
    (workloads ++
     [(["proj"; "copilot"; "db"], Dir true);
      (["proj"; "copilot"; "db"; "manifest.yml"],
       File false (line "type: X"))]).

(** A Dockerfile in the working directory and in sub1, none in sub2. *)
Definition disk_docker : Fs :=
  disk ["app"]
    [([], Dir true); (["app"], Dir true);
     (["app"; "Dockerfile"], File true (line "FROM scratch"));
     (["app"; "sub1"], Dir true);
     (["app"; "sub1"; "Dockerfile"], File true (line "FROM scratch"));
     (["app"; "sub2"], Dir true);
     (["app"; "sub2"; "main.go"], File true (line "package main"))].

(** The marker directory /r/copilot, the process running [d] levels below
    /r, in /r/1/2/.../d. *)
Definition levels : list string := ["1"; "2"; "3"; "4"; "5"; "6"; "7"].

Definition planted (d : nat) : Fs :=
  disk ("r" :: take d levels)
    (([], Dir true) :: (["r"; "copilot"], Dir true) ::
     map (λ i, ("r" :: take i levels, Dir true)) (seq 0 (S d))).

(** The process running [d] levels inside the marker directory /r/copilot,
    in /r/copilot/1/2/.../d. *)
Definition planted_within (d : nat) : Fs :=
  disk ("r" :: "copilot" :: take d levels)
    (([], Dir true) :: (["r"], Dir true) ::
     map (λ i, ("r" :: "copilot" :: take i levels, Dir true)) (seq 0 (S d))).

(** ** Vocabulary of the statements *)

(** [ancestor d p] is the directory [d] levels above [p]. *)
Fixpoint ancestor (d : nat) (p : path) : path :=
  match d with
  | 0 => p
  | S d' => ancestor d' (filepath.Dir p)
  end.

(** The path at which a marker directory sits when it is a child of the
    [d]-th ancestor of [p]. *)
Definition markerAt (d : nat) (p : path) : path :=
  filepath.Join (ancestor d p) [CopilotDirName].

Fixpoint has_slash (s : string) : bool :=
  match s with
  | EmptyString => false
  | String c s' => Ascii.eqb c "/"%char || has_slash s'
  end.

(** A file name as a directory can hold it: not empty, not ["."] or [".."],
    and without a separator. *)
Definition ordinary (c : string) : bool :=
  negb (bool_decide (c = "" ∨ c = "." ∨ c = "..")) && negb (has_slash c).

(** None of the levels CopilotDirPath searches from [wd] holds a marker
    directory, and every probe answers without an error. *)
Definition no_marker (fs : Fs) (wd : path) : bool :=
  forallb (λ k, match DirExists fs (markerAt k wd) with
                | (false, None) => true
                | _ => false
                end) (seq 0 maximumParentDirsToSearch).

(** A project in which nothing has been initialised: the process runs in a
    directory it may write to, not itself called "copilot", that holds no
    entry "copilot", and no marker directory is within reach. *)
Definition fresh (fs : Fs) : bool :=
  negb (bool_decide (filepath.Base (cwd fs) = CopilotDirName)) &&
  forallb ordinary (cwd fs) &&
  match Stat fs (cwd fs) with Ok (Dir true) => true | _ => false end &&
  no_marker fs (cwd fs) &&
  bool_decide (nodes fs !! (cwd fs ++ [CopilotDirName]) = None) &&
  bool_decide
    (nodes fs !! (cwd fs ++ [CopilotDirName; SummaryFileName]) = None).

(** The order of a list sorted by a string key. *)
Definition key_le {A} (key : A → string) (x y : A) : Prop :=
  String.le (key x) (key y).

Section WorkloadVocabulary.

Variable yamlUnmarshalType : bytes → result string.

(** The manifest of workload [x] decodes to the type [ty]. *)
Definition decodes (fs : Fs) (cp : path) (x ty : string) : Prop :=
  ∃ dat, ReadFile fs (filepath.Join cp [x; manifestFileName]) = Ok dat ∧
         readWorkloadType yamlUnmarshalType dat = Ok ty.

(** The manifest of workload [x] cannot be read or decoded, and [e] is
    the error the enumeration reports for it. *)
Definition breaks (fs : Fs) (cp : path) (x : string) (e : error) : Prop :=
  (∃ e0, ReadFile fs (filepath.Join cp [x; manifestFileName]) = Err e0 ∧
         e = Errorf ("read manifest for workload " +:+ x) e0) ∨
  (∃ dat, ReadFile fs (filepath.Join cp [x; manifestFileName]) = Ok dat ∧
          readWorkloadType yamlUnmarshalType dat = Err e).

End WorkloadVocabulary.

(** The existence probe of the manifest of [x] answers [true]. *)
Definition probed (fs : Fs) (cp : path) (x : string) : Prop :=
  (Exists fs (filepath.Join cp [x; manifestFileName])).1 = true.

(** Every component of every path on the disk is a file name. *)
Definition well_named (fs : Fs) : bool :=
  forallb (λ kn : path * node, forallb ordinary kn.1) (map_to_list (nodes fs)).

(** Every immediate sub-directory of [wd] may be listed. *)
Definition subdirs_listable (fs : Fs) (wd : path) : bool :=
  forallb (λ kn : path * node,
             match child_name wd kn.1, kn.2 with
             | Some _, Dir false => false
             | _, _ => true
             end) (map_to_list (nodes fs)).

Definition isFile (fs : Fs) (p : path) : Prop :=
  ∃ pm dat, nodes fs !! p = Some (File pm dat).

(** The directories ListDockerfiles is to report, named as it names them:
    ["."] for the working directory [wd] when it holds a regular file
    "Dockerfile", and the name of every immediate sub-directory that holds
    one. *)
Definition qualifies (fs : Fs) (wd : path) (dir : string) : Prop :=
  (dir = "." ∧ isFile fs (wd ++ [dockerfileName])) ∨
  ((∃ pm, nodes fs !! (wd ++ [dir]) = Some (Dir pm)) ∧
   isFile fs (wd ++ [dir; dockerfileName])).

(** A regular file "Dockerfile" is among the entries. *)
Definition hasDockerfile (files : list FileInfo) : Prop :=
  ∃ f, f ∈ files ∧ IsDir f = false ∧ Name f = dockerfileName.

(** * Properties *)

(** ** Path resolution *)

Lemma walk_snoc m pre rest c :
  walk m pre (rest ++ [c]) =
    match walk m pre rest with
    | Ok (Dir true) =>
        match m !! (pre ++ rest ++ [c]) with
        | Some n => Ok n
        | None => Err (PathError ENOENT (pre ++ rest ++ [c]))
        end
    | Ok (Dir false) => Err (PathError EACCES (pre ++ rest ++ [c]))
    | Ok (File _ _) => Err (PathError ENOTDIR (pre ++ rest ++ [c]))
    | Err (PathError e _) => Err (PathError e (pre ++ rest ++ [c]))
    | Err e => Err e
    end.
Proof.
  revert pre. induction rest as [|a rest IH]; intros pre; cbn [walk app].
  - destruct (m !! pre) as [[pm d|[|]]|] eqn:E; try done.
    by rewrite app_nil_r.
  - destruct (m !! pre) as [[pm d|[|]]|] eqn:E; try done.
    rewrite IH. by rewrite <- !app_assoc.
Qed.

Lemma Stat_snoc fs p c :
  Stat fs (p ++ [c]) =
    match Stat fs p with
    | Ok (Dir true) =>
        match nodes fs !! (p ++ [c]) with
        | Some n => Ok n
        | None => Err (PathError ENOENT (p ++ [c]))
        end
    | Ok (Dir false) => Err (PathError EACCES (p ++ [c]))
    | Ok (File _ _) => Err (PathError ENOTDIR (p ++ [c]))
    | Err (PathError e _) => Err (PathError e (p ++ [c]))
    | Err e => Err e
    end.
Proof. unfold Stat. by rewrite walk_snoc. Qed.

Lemma walk_lookup m pre rest n :
  walk m pre rest = Ok n → m !! (pre ++ rest) = Some n.
Proof.
  revert pre. induction rest as [|a rest IH]; intros pre; cbn [walk app].
  - rewrite app_nil_r. destruct (m !! pre) eqn:E; congruence.
  - destruct (m !! pre) as [[pm d|[|]]|]; try done.
    intros H. apply IH in H. by rewrite <- app_assoc in H.
Qed.

Lemma Stat_lookup fs p n : Stat fs p = Ok n → nodes fs !! p = Some n.
Proof. apply walk_lookup. Qed.

(** Resolution looks only at the prefixes of the path. *)
Lemma walk_ext m m' pre rest :
  (∀ i, m' !! (pre ++ take i rest) = m !! (pre ++ take i rest)) →
  walk m' pre rest = walk m pre rest.
Proof.
  revert pre. induction rest as [|a rest IH]; intros pre H; cbn [walk app].
  - specialize (H 0). simpl in H. rewrite app_nil_r in H. by rewrite H.
  - pose proof (H 0) as H0. simpl in H0. rewrite app_nil_r in H0. rewrite H0.
    destruct (m !! pre) as [[pm d|[|]]|]; try done.
    apply IH. intros i. specialize (H (S i)). simpl in H.
    by rewrite <- !app_assoc.
Qed.

Lemma Stat_insert_frame fs k n p :
  ¬ k `prefix_of` p →
  Stat (set_nodes fs (<[k := n]> (nodes fs))) p = Stat fs p.
Proof.
  intros Hk. unfold Stat. simpl. apply walk_ext. intros i. simpl.
  apply lookup_insert_ne. intros ->. apply Hk.
  exists (drop i p). by rewrite take_drop.
Qed.

Lemma Stat_delete_frame fs k p :
  ¬ k `prefix_of` p →
  Stat (set_nodes fs (delete k (nodes fs))) p = Stat fs p.
Proof.
  intros Hk. unfold Stat. simpl. apply walk_ext. intros i. simpl.
  apply lookup_delete_ne. intros ->. apply Hk.
  exists (drop i p). by rewrite take_drop.
Qed.

Lemma snoc_not_prefix {A} (p : list A) c : ¬ (p ++ [c]) `prefix_of` p.
Proof.
  intros [k Hk]. apply (f_equal length) in Hk.
  rewrite !length_app in Hk. simpl in Hk. lia.
Qed.

Lemma path_snoc (p : path) :
  p ≠ [] → p = filepath.Dir p ++ [filepath.Base p].
Proof. intros H. by apply app_removelast_last. Qed.

(** After a node is put at [p] under a searchable parent, [p] resolves to it. *)
Lemma Stat_insert_same fs p n :
  p ≠ [] → Stat fs (filepath.Dir p) = Ok (Dir true) →
  Stat (set_nodes fs (<[p := n]> (nodes fs))) p = Ok n.
Proof.
  intros Hp Hd. rewrite (path_snoc p Hp) at 2. rewrite Stat_snoc.
  rewrite Stat_insert_frame, Hd.
  - simpl. rewrite <- (path_snoc p Hp). by rewrite lookup_insert_eq.
  - rewrite (path_snoc p Hp) at 1. apply snoc_not_prefix.
Qed.

Lemma Stat_parent fs p n :
  p ≠ [] → Stat fs p = Ok n → Stat fs (filepath.Dir p) = Ok (Dir true).
Proof.
  intros Hp. rewrite (path_snoc p Hp) at 1. rewrite Stat_snoc.
  by destruct (Stat fs (filepath.Dir p)) as [[pm d|[|]]|[]].
Qed.

Lemma create_Ok fs p n fs' :
  create fs p n = Ok fs' →
  p ≠ [] ∧ Stat fs (filepath.Dir p) = Ok (Dir true) ∧
  fs' = set_nodes fs (<[p := n]> (nodes fs)).
Proof.
  unfold create. destruct p as [|a p]; [done|].
  destruct (Stat fs (filepath.Dir (a :: p))) as [[pm d|[|]]|]; try done.
  by intros [= <-].
Qed.

Lemma WriteFile_Ok fs p data fs' :
  WriteFile fs p data = Ok fs' →
  fs' = set_nodes fs (<[p := File true data]> (nodes fs)) ∧
  Stat fs' p = Ok (File true data).
Proof.
  unfold WriteFile. destruct (Stat fs p) as [[[|] d|pm]|e] eqn:E; try done.
  - intros [= <-]. split; [done|].
    destruct (decide (p = [])) as [->|Hp].
    + unfold Stat. simpl. by rewrite lookup_insert_eq.
    + apply Stat_insert_same; [done|]. by eapply Stat_parent.
  - destruct (IsNotExist e); [|done]. intros H.
    apply create_Ok in H as (Hp & Hd & ->). split; [done|].
    by apply Stat_insert_same.
Qed.

Lemma ReadFile_Stat fs p data :
  Stat fs p = Ok (File true data) → ReadFile fs p = Ok data.
Proof. unfold ReadFile. by intros ->. Qed.

Lemma Exists_Stat fs p n : Stat fs p = Ok n → Exists fs p = (true, None).
Proof. unfold Exists. by intros ->. Qed.

Lemma Exists_false fs p o :
  Exists fs p = (false, o) → ∃ e, Stat fs p = Err e.
Proof. unfold Exists. destruct (Stat fs p); [done|eauto]. Qed.

Lemma MkdirAll_existing fs p pm :
  Stat fs p = Ok (Dir pm) → MkdirAll fs p = (None, fs).
Proof.
  intros H. unfold MkdirAll. rewrite <- (rev_involutive p) in H.
  destruct (rev p); cbn [MkdirAll_rev]; by rewrite H.
Qed.

(** ** Joining file names *)

Lemma string_app_assoc (a b c : string) : (a +:+ b) +:+ c = a +:+ (b +:+ c).
Proof.
  induction a as [|x a IH]; [done|].
  change (String x ((a +:+ b) +:+ c) = String x (a +:+ (b +:+ c))).
  by rewrite IH.
Qed.

Lemma string_app_nil_r (a : string) : a +:+ "" = a.
Proof.
  induction a as [|x a IH]; [done|].
  change (String x (a +:+ "") = String x a). by rewrite IH.
Qed.

Lemma split_slash_no_slash cur s :
  has_slash s = false → filepath.split_slash cur s = [cur +:+ s].
Proof.
  revert cur. induction s as [|c s IH]; intros cur; simpl.
  - intros _. by rewrite string_app_nil_r.
  - destruct (Ascii.eqb c "/"); [done|]. simpl. intros H.
    rewrite (IH _ H). by rewrite string_app_assoc.
Qed.

Lemma ordinary_step acc c :
  ordinary c = true → filepath.clean_step acc c = acc ++ [c].
Proof.
  unfold ordinary, filepath.clean_step. intros [H _]%andb_true_iff.
  apply negb_true_iff, bool_decide_eq_false in H.
  rewrite decide_False by tauto. rewrite decide_False by tauto. done.
Qed.

Lemma fold_clean_ordinary p acc :
  forallb ordinary p = true → fold_left filepath.clean_step p acc = acc ++ p.
Proof.
  revert acc. induction p as [|c p IH]; intros acc; simpl.
  - by rewrite app_nil_r.
  - intros [Hc Hp]%andb_true_iff. rewrite (ordinary_step _ _ Hc), (IH _ Hp).
    by rewrite <- app_assoc.
Qed.

Lemma Join_child wd c :
  forallb ordinary (wd ++ [c]) = true → filepath.Join wd [c] = wd ++ [c].
Proof.
  intros H. unfold filepath.Join, filepath.Clean. simpl.
  assert (ordinary c = true) as Hc.
  { rewrite forallb_app in H. apply andb_true_iff in H as [_ H].
    simpl in H. by rewrite andb_true_r in H. }
  apply andb_true_iff in Hc as Hs. destruct Hs as [_ Hs].
  apply negb_true_iff in Hs.
  rewrite (split_slash_no_slash _ _ Hs). simpl.
  change ("" +:+ c) with c. by rewrite (fold_clean_ordinary _ _ H).
Qed.

Lemma well_named_lookup fs k n :
  well_named fs = true → nodes fs !! k = Some n → forallb ordinary k = true.
Proof.
  unfold well_named. rewrite forallb_forall. intros H Hk.
  apply (H (k, n)). apply list_elem_of_In. by apply elem_of_map_to_list.
Qed.

Lemma create_intro fs p n :
  p ≠ [] → Stat fs (filepath.Dir p) = Ok (Dir true) →
  create fs p n = Ok (set_nodes fs (<[p := n]> (nodes fs))).
Proof. intros Hp Hd. unfold create. rewrite Hd. by destruct p. Qed.

(** ** The marker directory and its cache *)

Lemma CopilotDirPath_cached ws fs d :
  copilotDir ws = Some d → CopilotDirPath ws fs = (Ok d, ws).
Proof. unfold CopilotDirPath. by intros ->. Qed.

Lemma CopilotDirPath_Ok ws fs d ws1 :
  CopilotDirPath ws fs = (Ok d, ws1) →
  copilotDir ws1 = Some d ∧ workingDir ws1 = workingDir ws.
Proof.
  unfold CopilotDirPath. destruct (copilotDir ws) as [c|] eqn:Hc.
  - by intros [= <- <-].
  - case_decide.
    + by intros [= <- <-].
    + destruct (searchParents _ _ _) as [[c|]|e]; [|done..].
      by intros [= <- <-].
Qed.

Lemma CopilotDirPath_Err ws fs e ws1 :
  CopilotDirPath ws fs = (Err e, ws1) → ws1 = ws.
Proof.
  unfold CopilotDirPath. destruct (copilotDir ws) as [c|]; [done|].
  case_decide; [done|].
  destruct (searchParents _ _ _) as [[c|]|e']; congruence.
Qed.

Lemma searchParents_found fs tries d dir :
  d < tries →
  (∀ k, k < d → DirExists fs (markerAt k dir) = (false, None)) →
  DirExists fs (markerAt d dir) = (true, None) →
  searchParents fs tries dir = Ok (Some (markerAt d dir)).
Proof.
  revert d dir. induction tries as [|tries IH]; intros d dir Hd Hlt Hat; [lia|].
  cbn [searchParents]. destruct d as [|d].
  - unfold markerAt in Hat. cbn [ancestor] in Hat. by rewrite Hat.
  - pose proof (Hlt 0 ltac:(lia)) as H0.
    unfold markerAt in H0. cbn [ancestor] in H0. rewrite H0.
    apply (IH d (filepath.Dir dir)); [lia| |done].
    intros k Hk. apply (Hlt (S k)). lia.
Qed.

Lemma searchParents_none fs tries dir :
  (∀ k, k < tries → DirExists fs (markerAt k dir) = (false, None)) →
  searchParents fs tries dir = Ok None.
Proof.
  revert dir. induction tries as [|tries IH]; intros dir Hlt; [done|].
  cbn [searchParents].
  pose proof (Hlt 0 ltac:(lia)) as H0.
  unfold markerAt in H0. cbn [ancestor] in H0. rewrite H0.
  apply IH. intros k Hk. apply (Hlt (S k)). lia.
Qed.

Lemma no_marker_probe fs wd k :
  no_marker fs wd = true → k < maximumParentDirsToSearch →
  DirExists fs (markerAt k wd) = (false, None).
Proof.
  unfold no_marker. rewrite forallb_forall. intros H Hk.
  specialize (H k). rewrite in_seq in H.
  destruct (DirExists fs (markerAt k wd)) as [[|] [e|]];
    try done; by specialize (H ltac:(lia)).
Qed.

(** C1 (as the code has it): with nothing cached and a working directory
    that is not itself called "copilot", a marker directory whose nearest
    occurrence is a child of the [d]-th ancestor of the working directory is
    found, and its absolute path returned and cached, exactly when [d < 5]:
    the five levels searched are the working directory and its four nearest
    ancestors.  For every [d >= 5], in particular 5 and 6, the call fails
    with the workspace-not-found error. *)
Theorem C1_CopilotDirPath_five_levels ws fs d :
  copilotDir ws = None →
  filepath.Base (workingDir ws) ≠ CopilotDirName →
  (∀ k, k < d → k < maximumParentDirsToSearch →
        DirExists fs (markerAt k (workingDir ws)) = (false, None)) →
  (d < maximumParentDirsToSearch →
        DirExists fs (markerAt d (workingDir ws)) = (true, None)) →
  CopilotDirPath ws fs =
    if decide (d < maximumParentDirsToSearch)
    then (Ok (markerAt d (workingDir ws)),
          set_copilotDir ws (markerAt d (workingDir ws)))
    else (Err (errWorkspaceNotFound (workingDir ws) CopilotDirName
                 maximumParentDirsToSearch), ws).
Proof.
  intros Hc Hb Hlt Hat. unfold CopilotDirPath. rewrite Hc.
  rewrite decide_False by done. case_decide as Hd.
  - rewrite (searchParents_found fs _ d); [done|done| |by apply Hat].
    intros k Hk. apply Hlt; lia.
  - rewrite searchParents_none; [done|].
    intros k Hk. apply Hlt; lia.
Qed.

Lemma CopilotDirPath_not_found ws fs :
  copilotDir ws = None →
  filepath.Base (workingDir ws) ≠ CopilotDirName →
  no_marker fs (workingDir ws) = true →
  CopilotDirPath ws fs =
    (Err (errWorkspaceNotFound (workingDir ws) CopilotDirName
            maximumParentDirsToSearch), ws).
Proof.
  intros Hc Hb Hnm. unfold CopilotDirPath. rewrite Hc.
  rewrite decide_False by done. rewrite searchParents_none; [done|].
  intros k Hk. by apply no_marker_probe.
Qed.

(** C8: once CopilotDirPath has succeeded, the path is cached in the
    instance, and every later call on that instance returns it and leaves
    the instance as it is, whatever the file system then contains. *)
Theorem C8_CopilotDirPath_memoized ws fs d ws1 :
  CopilotDirPath ws fs = (Ok d, ws1) →
  copilotDir ws1 = Some d ∧
  ∀ fs', CopilotDirPath ws1 fs' = (Ok d, ws1).
Proof.
  intros H. apply CopilotDirPath_Ok in H as [Hc _]. split; [done|].
  intros fs'. by apply CopilotDirPath_cached.
Qed.

(** ** Conflict-safe writes *)

Lemma write_Ok data elem ws fs p ws1 fs1 :
  write data elem ws fs = (Ok p, ws1, fs1) →
  ∃ cp, copilotDir ws1 = Some cp ∧ p = filepath.Join cp elem ∧
        Stat fs1 p = Ok (File true data) ∧
        Stat fs1 (filepath.Dir p) = Ok (Dir true).
Proof.
  unfold write. destruct (CopilotDirPath ws fs) as [[cp|e] ws'] eqn:Hcp;
    [|done].
  apply CopilotDirPath_Ok in Hcp as [Hc _].
  destruct (MkdirAll fs _) as [[e|] fsm]; [done|].
  destruct (Exists fsm _) as [[|] [e|]] eqn:Hex; try done.
  destruct (WriteFile fsm _ data) as [fs2|e] eqn:Hw; [|done].
  intros [= <- <- <-]. exists cp. split_and!; [done|done|..].
  - by apply WriteFile_Ok in Hw as [_ ?].
  - apply Exists_false in Hex as [e He].
    unfold WriteFile in Hw. rewrite He in Hw.
    destruct (IsNotExist e); [|done].
    apply create_Ok in Hw as (Hp & Hd & ->).
    rewrite Stat_insert_frame; [done|].
    rewrite (path_snoc _ Hp) at 1. apply snoc_not_prefix.
Qed.

Lemma write_existing data elem ws fs cp n pm :
  copilotDir ws = Some cp →
  Stat fs (filepath.Join cp elem) = Ok n →
  Stat fs (filepath.Dir (filepath.Join cp elem)) = Ok (Dir pm) →
  write data elem ws fs = (Err (ErrFileExists (filepath.Join cp elem)), ws, fs).
Proof.
  intros Hc Hn Hd. unfold write.
  rewrite (CopilotDirPath_cached _ _ _ Hc).
  rewrite (MkdirAll_existing _ _ _ Hd).
  by rewrite (Exists_Stat _ _ _ Hn).
Qed.

Lemma read_existing elem ws fs cp data :
  copilotDir ws = Some cp →
  Stat fs (filepath.Join cp elem) = Ok (File true data) →
  read elem ws fs = (Ok data, ws).
Proof.
  intros Hc Hn. unfold read.
  rewrite (CopilotDirPath_cached _ _ _ Hc).
  by rewrite (ReadFile_Stat _ _ _ Hn).
Qed.

Lemma Join_manifest_nonempty cp name :
  filepath.Join cp [name; manifestFileName] ≠ [].
Proof.
  unfold filepath.Join, filepath.Clean. cbn [flat_map].
  change (filepath.split_slash "" manifestFileName) with [manifestFileName].
  rewrite app_nil_r, !app_assoc, fold_left_app. cbn [fold_left].
  unfold filepath.clean_step at 1.
  destruct (decide _) as [[H|H]|_]; [done..|].
  destruct (decide _) as [H|_]; [done|].
  by intros [_ ?]%app_nil.
Qed.

(** A manifest that is there is never written over, whoever put it there. *)
Lemma WriteServiceManifest_existing marshaler data name ws fs cp ws1 n :
  MarshalBinary marshaler = Ok data →
  CopilotDirPath ws fs = (Ok cp, ws1) →
  Stat fs (filepath.Join cp [name; manifestFileName]) = Ok n →
  WriteServiceManifest marshaler name ws fs =
    (Err (ErrFileExists (filepath.Join cp [name; manifestFileName])), ws1, fs).
Proof.
  intros Hm Hcp Hn. unfold WriteServiceManifest, write. rewrite Hm, Hcp.
  rewrite (MkdirAll_existing _ _ true).
  - by rewrite (Exists_Stat _ _ _ Hn).
  - eapply Stat_parent; [apply Join_manifest_nonempty|done].
Qed.

(** C2: after a manifest has been written for a workload, a second write
    for the same workload fails with ErrFileExists carrying the path of the
    manifest and changes neither the disk nor the instance; the manifest
    read back is the first payload. *)
Theorem C2_WriteServiceManifest_no_overwrite
    m1 m2 data2 name ws fs p ws1 fs1 :
  WriteServiceManifest m1 name ws fs = (Ok p, ws1, fs1) →
  MarshalBinary m2 = Ok data2 →
  WriteServiceManifest m2 name ws1 fs1 = (Err (ErrFileExists p), ws1, fs1) ∧
  ∃ data1, MarshalBinary m1 = Ok data1 ∧
           ReadServiceManifest name ws1 fs1 = (Ok data1, ws1).
Proof.
  unfold WriteServiceManifest, ReadServiceManifest, readWorkloadManifest.
  intros H1 ->. destruct (MarshalBinary m1) as [data1|e]; [|done].
  apply write_Ok in H1 as (cp & Hc & -> & Hp & Hd). split.
  - by eapply write_existing.
  - exists data1. split; [done|].
    by rewrite (read_existing _ _ _ _ _ Hc Hp).
Qed.

(** C9: after WriteAddon has written the addon [name] of service [svc],
    ReadAddon of the file [name ++ ".yml"] returns the bytes written. *)
Theorem C9_WriteAddon_ReadAddon content svc name ws fs p ws1 fs1 :
  WriteAddon content svc name ws fs = (Ok p, ws1, fs1) →
  ∃ cp data,
    copilotDir ws1 = Some cp ∧
    p = filepath.Join cp [svc; "addons"; name +:+ ".yml"] ∧
    MarshalBinary content = Ok data ∧
    ReadAddon svc (name +:+ ".yml") ws1 fs1 = (Ok data, ws1).
Proof.
  unfold WriteAddon, ReadAddon.
  destruct (MarshalBinary content) as [data|e]; [|done]. intros H.
  apply write_Ok in H as (cp & Hc & -> & Hp & _).
  exists cp, data. split_and!; [done..|]. by eapply read_existing.
Qed.

(** ** The summary record *)

Lemma summaryPath_cached ws fs cp :
  copilotDir ws = Some cp →
  summaryPath ws fs = (Ok (filepath.Join cp [SummaryFileName]), ws).
Proof.
  intros Hc. unfold summaryPath. by rewrite (CopilotDirPath_cached _ _ _ Hc).
Qed.

Lemma summaryPath_Ok ws fs p ws1 :
  summaryPath ws fs = (Ok p, ws1) →
  ∃ cp, copilotDir ws1 = Some cp ∧ p = filepath.Join cp [SummaryFileName].
Proof.
  unfold summaryPath.
  destruct (CopilotDirPath ws fs) as [[cp|e] ws'] eqn:Hcp; [|done].
  apply CopilotDirPath_Ok in Hcp as [Hc _]. intros [= <- <-]. eauto.
Qed.

Lemma summaryPath_Err ws fs e ws1 :
  summaryPath ws fs = (Err e, ws1) → CopilotDirPath ws fs = (Err e, ws1).
Proof.
  unfold summaryPath.
  destruct (CopilotDirPath ws fs) as [[cp|e'] ws']; congruence.
Qed.

Lemma createCopilotDir_cached ws fs cp :
  copilotDir ws = Some cp → createCopilotDir ws fs = (None, ws, fs).
Proof.
  intros Hc. unfold createCopilotDir.
  by rewrite (CopilotDirPath_cached _ _ _ Hc).
Qed.

Section Summary.

(** yaml.Marshal and yaml.Unmarshal at the type of the summary record *)
Variable marshal : Summary → result bytes.
Variable unmarshal : bytes → result Summary.

Lemma Summary_existing ws fs cp value :
  copilotDir ws = Some cp →
  Stat fs (filepath.Join cp [SummaryFileName]) = Ok (File true value) →
  Workspace_Summary unmarshal ws fs = (unmarshal value, ws).
Proof.
  intros Hc Hs. unfold Workspace_Summary.
  rewrite (summaryPath_cached _ _ _ Hc), (Exists_Stat _ _ _ Hs).
  by rewrite (ReadFile_Stat _ _ _ Hs).
Qed.

(** A summary that was read is read again, from the cached directory. *)
Lemma Summary_Ok ws fs s ws1 :
  Workspace_Summary unmarshal ws fs = (Ok s, ws1) →
  (∃ cp, copilotDir ws1 = Some cp) ∧
  Workspace_Summary unmarshal ws1 fs = (Ok s, ws1).
Proof.
  unfold Workspace_Summary at 1.
  destruct (summaryPath ws fs) as [[p|e] ws'] eqn:Hp; [|done].
  apply summaryPath_Ok in Hp as (cp & Hc & ->).
  destruct (Exists fs _) as [[|] o] eqn:Hex; [|done].
  destruct (ReadFile fs _) as [value|e] eqn:Hr; [|done].
  intros [= Hs <-]. split; [eauto|]. unfold Workspace_Summary.
  by rewrite (summaryPath_cached _ _ _ Hc), Hex, Hr, Hs.
Qed.

Lemma writeSummary_Ok appName ws fs ws1 fs1 :
  writeSummary marshal appName ws fs = (None, ws1, fs1) →
  ∃ cp value,
    copilotDir ws1 = Some cp ∧
    marshal {| Application := appName |} = Ok value ∧
    Stat fs1 (filepath.Join cp [SummaryFileName]) = Ok (File true value).
Proof.
  unfold writeSummary.
  destruct (summaryPath ws fs) as [[p|e] ws'] eqn:Hp; [|done].
  apply summaryPath_Ok in Hp as (cp & Hc & ->).
  destruct (marshal _) as [value|e] eqn:Hm; [|done].
  destruct (WriteFile fs _ value) as [fs2|e] eqn:Hw; [|done].
  intros [= <- <-]. exists cp, value. split_and!; [done..|].
  by apply WriteFile_Ok in Hw as [_ ?].
Qed.

(** What Create does in a workspace that already has a summary. *)
Lemma Create_associated appName ws fs s :
  (∃ cp, copilotDir ws = Some cp) →
  Workspace_Summary unmarshal ws fs = (Ok s, ws) →
  Create marshal unmarshal appName ws fs =
    if decide (Application s ≠ appName)
    then (Some (errHasExistingApplication (Application s)), ws, fs)
    else (None, ws, fs).
Proof.
  intros [cp Hc] Hs. unfold Create.
  by rewrite (createCopilotDir_cached _ _ _ Hc), Hs.
Qed.

(** The state a successful Create leaves behind: the directory is cached
    and the summary names the application. *)
Lemma Create_Ok appName ws fs ws1 fs1 :
  (∀ value, marshal {| Application := appName |} = Ok value →
            unmarshal value = Ok {| Application := appName |}) →
  Create marshal unmarshal appName ws fs = (None, ws1, fs1) →
  (∃ cp, copilotDir ws1 = Some cp) ∧
  Workspace_Summary unmarshal ws1 fs1
    = (Ok {| Application := appName |}, ws1).
Proof.
  intros Hrt. unfold Create.
  destruct (createCopilotDir ws fs) as [[[e|] wsa] fsa]; [done|].
  destruct (Workspace_Summary _ wsa fsa) as [[s|e] wsb] eqn:Hs.
  - case_decide as Hne; [done|]. intros [= <- <-].
    destruct s as [a]. simpl in Hne. subst a.
    by apply Summary_Ok in Hs.
  - destruct (As_errNoAssociatedApplication e); [|done]. intros Hw.
    apply writeSummary_Ok in Hw as (cp & value & Hc & Hm & Hst).
    split; [eauto|].
    rewrite (Summary_existing _ _ _ _ Hc Hst). by rewrite (Hrt _ Hm).
Qed.

(** In a fresh project Create makes the copilot directory in the working
    directory and writes the summary. *)
Lemma Create_fresh appName fs value :
  fresh fs = true →
  marshal {| Application := appName |} = Ok value →
  ∃ fs1,
    Create marshal unmarshal appName (New fs) fs =
      (None, set_copilotDir (New fs) (cwd fs ++ [CopilotDirName]), fs1).
Proof.
  unfold fresh. rewrite !andb_true_iff.
  intros (((((Hbase & Hord) & Hstat) & Hnm) & Hnone) & Hnosum) Hm.
  apply negb_true_iff, bool_decide_eq_false in Hbase.
  apply bool_decide_eq_true in Hnone, Hnosum.
  destruct (Stat fs (cwd fs)) as [[|[|]]|] eqn:Hwd; try done. clear Hstat.
  set (cp := cwd fs ++ [CopilotDirName]).
  set (sp := cp ++ [SummaryFileName]).
  set (ws1 := set_copilotDir (New fs) cp).
  set (fs' := set_nodes fs (<[cp := Dir true]> (nodes fs))).
  assert (filepath.Join (cwd fs) [CopilotDirName] = cp) as Hcp.
  { apply Join_child. rewrite forallb_app, Hord. done. }
  assert (filepath.Join cp [SummaryFileName] = sp) as Hsp.
  { apply Join_child. unfold cp. rewrite !forallb_app, Hord. done. }
  assert (cp ≠ []) as Hcp0 by (by intros [_ ?]%app_nil).
  assert (sp ≠ []) as Hsp0 by (by intros [_ ?]%app_nil).
  assert (filepath.Dir cp = cwd fs) as Hdcp by apply removelast_last.
  assert (filepath.Dir sp = cp) as Hdsp by apply removelast_last.
  assert (Stat fs cp = Err (PathError ENOENT cp)) as Hno.
  { unfold cp. by rewrite Stat_snoc, Hwd, Hnone. }
  assert (Mkdir fs cp = Ok fs') as Hmk.
  { unfold Mkdir. rewrite Hno. simpl. apply create_intro; [done|].
    by rewrite Hdcp. }
  assert (Stat fs' cp = Ok (Dir true)) as Hst'.
  { apply Stat_insert_same; [done|]. by rewrite Hdcp. }
  assert (Stat fs' sp = Err (PathError ENOENT sp)) as Hnos.
  { unfold sp. rewrite Stat_snoc, Hst'. simpl.
    rewrite lookup_insert_ne.
    - unfold cp. rewrite <- app_assoc. simpl. by rewrite Hnosum.
    - intros H. apply (f_equal length) in H.
      rewrite length_app in H. simpl in H. lia. }
  assert (CopilotDirPath (New fs) fs' = (Ok cp, ws1)) as Hfind.
  { unfold CopilotDirPath. simpl. rewrite decide_False by done.
    change maximumParentDirsToSearch with 5. cbn [searchParents].
    rewrite Hcp. unfold DirExists. by rewrite Hst'. }
  unfold Create, createCopilotDir.
  rewrite (CopilotDirPath_not_found (New fs) fs) by done.
  unfold relative. rewrite Hcp, Hmk.
  unfold Workspace_Summary, summaryPath. rewrite Hfind, Hsp.
  unfold Exists. rewrite Hnos. simpl.
  unfold writeSummary.
  rewrite (summaryPath_cached ws1 fs' cp) by done.
  rewrite Hsp, Hm. unfold WriteFile. rewrite Hnos. simpl.
  rewrite create_intro; [eauto|done|by rewrite Hdsp].
Qed.

(** C5: Create is idempotent.  In a fresh project Create(n) succeeds; and
    whenever Create(n) has succeeded, a second Create(n) succeeds as well,
    changes nothing, and the summary read back names the application [n].
    The codec is assumed to decode what it encoded for this one record. *)
Theorem C5_Create_idempotent appName ws fs :
  (∀ value, marshal {| Application := appName |} = Ok value →
            unmarshal value = Ok {| Application := appName |}) →
  (fresh fs = true → ws = New fs →
   (∃ value, marshal {| Application := appName |} = Ok value) →
   ∃ ws1 fs1, Create marshal unmarshal appName ws fs = (None, ws1, fs1)) ∧
  (∀ ws1 fs1,
     Create marshal unmarshal appName ws fs = (None, ws1, fs1) →
     Create marshal unmarshal appName ws1 fs1 = (None, ws1, fs1) ∧
     Workspace_Summary unmarshal ws1 fs1
       = (Ok {| Application := appName |}, ws1)).
Proof.
  intros Hrt. split.
  - intros Hfresh -> [value Hm].
    destruct (Create_fresh appName fs value Hfresh Hm) as [fs1 H]. eauto.
  - intros ws1 fs1 H. destruct (Create_Ok _ _ _ _ _ Hrt H) as [Hc Hs].
    split; [|done].
    rewrite (Create_associated _ _ _ _ Hc Hs).
    by rewrite decide_False by auto.
Qed.

(** C4: a workspace belongs to one application.  When Create(n1) has
    succeeded, Create(n2) with another name fails with
    errHasExistingApplication carrying [n1], changes neither the disk nor
    the instance, and the summary still names [n1]. *)
Theorem C4_Create_other_application n1 n2 ws fs ws1 fs1 :
  (∀ value, marshal {| Application := n1 |} = Ok value →
            unmarshal value = Ok {| Application := n1 |}) →
  n1 ≠ n2 →
  Create marshal unmarshal n1 ws fs = (None, ws1, fs1) →
  Create marshal unmarshal n2 ws1 fs1
    = (Some (errHasExistingApplication n1), ws1, fs1) ∧
  Workspace_Summary unmarshal ws1 fs1
    = (Ok {| Application := n1 |}, ws1).
Proof.
  intros Hrt Hne H. destruct (Create_Ok _ _ _ _ _ Hrt H) as [Hc Hs].
  split; [|done].
  rewrite (Create_associated _ _ _ _ Hc Hs). by rewrite decide_True.
Qed.

(** afero.Exists never answers [true] together with an error. *)
Lemma Exists_error fs p err :
  (Exists fs p).2 = Some err → (Exists fs p).1 = false.
Proof.
  unfold Exists. destruct (Stat fs p); [done|]. by destruct (IsNotExist _).
Qed.

(** C10: Summary reports "no associated application" when the summary
    file does not exist and also when the existence probe itself fails:
    the error of the probe is dropped and only its [false] is used. *)
Theorem C10_Summary_probe_error_is_not_associated ws fs p ws1 :
  summaryPath ws fs = (Ok p, ws1) →
  Exists fs p = (false, None) ∨ (∃ err, (Exists fs p).2 = Some err) →
  Workspace_Summary unmarshal ws fs = (Err errNoAssociatedApplication, ws1).
Proof.
  intros Hp Hex. unfold Workspace_Summary. rewrite Hp.
  assert ((Exists fs p).1 = false) as Hf.
  { destruct Hex as [->|[err He]]; [done|]. by eapply Exists_error. }
  destruct (Exists fs p) as [b o]. simpl in Hf. by subst b.
Qed.

End Summary.

(** ** Directory listings *)

Section Sorting.

Context {A : Type} (key : A → string).


Lemma insert_by_perm x l : insert_by key x l ≡ₚ x :: l.
Proof.
  induction l as [|y l IH]; simpl; [done|].
  destruct (String.leb (key x) (key y)); [done|].
  rewrite IH. apply Permutation_swap.
Qed.

Lemma sort_by_perm l : sort_by key l ≡ₚ l.
Proof.
  induction l as [|x l IH]; simpl; [done|].
  by rewrite insert_by_perm, IH.
Qed.

Lemma elem_of_sort_by x l : x ∈ sort_by key l ↔ x ∈ l.
Proof. by rewrite sort_by_perm. Qed.

Lemma insert_by_HdRel x y l :
  key_le key y x → HdRel (key_le key) y l →
  HdRel (key_le key) y (insert_by key x l).
Proof.
  intros Hyx [|z l' Hz]; simpl; [by constructor|].
  destruct (String.leb (key x) (key z)); by constructor.
Qed.

Lemma insert_by_sorted x l :
  Sorted (key_le key) l → Sorted (key_le key) (insert_by key x l).
Proof.
  induction 1 as [|y l Hl IH Hy]; simpl; [by repeat constructor|].
  destruct (String.leb (key x) (key y)) eqn:E.
  - constructor; [by constructor|]. constructor.
    unfold key_le, String.le. by rewrite E.
  - constructor; [done|]. apply insert_by_HdRel; [|done].
    unfold key_le.
    destruct (total String.le (key x) (key y)) as [H|H]; [|done].
    unfold String.le in H. by rewrite E in H.
Qed.

Lemma sort_by_sorted l : Sorted (key_le key) (sort_by key l).
Proof.
  induction l as [|x l IH]; simpl; [constructor|]. by apply insert_by_sorted.
Qed.

End Sorting.

Lemma child_name_Some p k c : child_name p k = Some c ↔ k = p ++ [c].
Proof.
  revert k. induction p as [|a p IHp]; intros k; simpl.
  - destruct k as [|b [|b' k]]; split; congruence.
  - destruct k as [|b k]; [split; congruence|].
    case_decide as Hab; [|split; congruence]. subst b. rewrite IHp.
    split; congruence.
Qed.

(** A listing holds exactly the children of the directory. *)
Lemma elem_of_entries m p f :
  f ∈ entries m p ↔
  ∃ n, m !! (p ++ [Name f]) = Some n ∧ IsDir f = is_dir n.
Proof.
  unfold entries. rewrite elem_of_sort_by, list_elem_of_omap. split.
  - intros ([k n] & Hkn & Hf). apply elem_of_map_to_list in Hkn.
    unfold entry_of in Hf. simpl in Hf.
    destruct (child_name p k) as [c|] eqn:Hc; [|done].
    apply child_name_Some in Hc as ->. simpl in Hf. injection Hf as <-.
    eauto.
  - intros (n & Hn & Hd). exists (p ++ [Name f], n). split.
    + by apply elem_of_map_to_list.
    + unfold entry_of. simpl.
      rewrite (proj2 (child_name_Some p _ (Name f)) eq_refl). simpl.
      destruct f as [nm d]. simpl in *. by rewrite Hd.
Qed.

Lemma ReadDir_Ok fs p files :
  ReadDir fs p = Ok files →
  Stat fs p = Ok (Dir true) ∧ files = entries (nodes fs) p.
Proof.
  unfold ReadDir. destruct (Stat fs p) as [[pm d|[|]]|e]; try done.
  by intros [= <-].
Qed.

(** ** Enumerating workloads *)

Lemma readWorkloadManifest_cached name ws fs cp :
  copilotDir ws = Some cp →
  readWorkloadManifest name ws fs =
    (ReadFile fs (filepath.Join cp [name; manifestFileName]), ws).
Proof.
  intros Hc. unfold readWorkloadManifest, read.
  by rewrite (CopilotDirPath_cached _ _ _ Hc).
Qed.

Lemma elem_of_entries_dir m p x :
  (∃ f, f ∈ entries m p ∧ IsDir f = true ∧ Name f = x) ↔
  (∃ pm, m !! (p ++ [x]) = Some (Dir pm)).
Proof.
  split.
  - intros (f & Hf & Hd & <-). apply elem_of_entries in Hf as (n & Hn & Hi).
    rewrite Hd in Hi. destruct n as [|pm]; [done|]. eauto.
  - intros (pm & Hn). exists (mkFileInfo x true). split_and!; [|done..].
    apply elem_of_entries. simpl. eauto.
Qed.

Section Workloads.

Variable yamlUnmarshalType : bytes → result string.
Variable match_ : string → bool.

Lemma decodes_fun fs cp x ty ty' :
  decodes yamlUnmarshalType fs cp x ty →
  decodes yamlUnmarshalType fs cp x ty' → ty = ty'.
Proof. intros (d & Hr & Hd) (d' & Hr' & Hd'). congruence. Qed.

Lemma decodes_breaks fs cp x ty e :
  decodes yamlUnmarshalType fs cp x ty →
  breaks yamlUnmarshalType fs cp x e → False.
Proof.
  intros (d & Hr & Hd) [(e0 & Hr' & _)|(d' & Hr' & Hd')]; congruence.
Qed.

Lemma workloadNamesLoop_spec cp ws fs :
  copilotDir ws = Some cp →
  ∀ files names r ws',
    workloadNamesLoop yamlUnmarshalType match_ cp files names ws fs
      = (r, ws') →
    ws' = ws ∧
    match r with
    | Ok out =>
        ∃ added, out = names ++ added ∧
          (∀ x, x ∈ added ↔
             ∃ f, f ∈ files ∧ IsDir f = true ∧ Name f = x ∧
                  probed fs cp x ∧
                  ∃ ty, decodes yamlUnmarshalType fs cp x ty ∧
                        match_ ty = true) ∧
          (∀ f, f ∈ files → IsDir f = true → probed fs cp (Name f) →
                ∃ ty, decodes yamlUnmarshalType fs cp (Name f) ty)
    | Err e =>
        ∃ f, f ∈ files ∧ IsDir f = true ∧ probed fs cp (Name f) ∧
             breaks yamlUnmarshalType fs cp (Name f) e
    end.
Proof.
  intros Hc. induction files as [|f files IH]; intros names r ws'.
  { simpl. intros [= <- <-]. split; [done|]. exists [].
    rewrite app_nil_r. split_and!; [done| |].
    - intros x. split; [by intros ?%elem_of_nil|].
      by intros (f & ?%elem_of_nil & _).
    - by intros f ?%elem_of_nil. }
  cbn [workloadNamesLoop].
  destruct (IsDir f) eqn:Hd; simpl.
  2:{ intros H. apply IH in H as [-> H]. split; [done|].
      destruct r as [out|e].
      - destruct H as (added & -> & Hin & Hall). exists added.
        split_and!; [done| |].
        + intros x. rewrite Hin. split.
          * intros (f' & Hf' & H). exists f'. split; [by right|done].
          * intros (f' & [->|Hf']%elem_of_cons & H); [|by eauto].
            destruct H as [H _]. congruence.
        + intros f' [->|Hf']%elem_of_cons; [congruence|]. by apply Hall.
      - destruct H as (f' & Hf' & H). exists f'. split; [by right|done]. }
  destruct (Exists fs _) as [[|] o] eqn:Hex; simpl.
  2:{ intros H. apply IH in H as [-> H]. split; [done|].
      assert (¬ probed fs cp (Name f)) as Hnp.
      { unfold probed. by rewrite Hex. }
      destruct r as [out|e].
      - destruct H as (added & -> & Hin & Hall). exists added.
        split_and!; [done| |].
        + intros x. rewrite Hin. split.
          * intros (f' & Hf' & H). exists f'. split; [by right|done].
          * intros (f' & [->|Hf']%elem_of_cons & H); [|by eauto].
            destruct H as (_ & <- & Hp & _). done.
        + intros f' [->|Hf']%elem_of_cons; [done|]. by apply Hall.
      - destruct H as (f' & Hf' & H). exists f'. split; [by right|done]. }
  assert (probed fs cp (Name f)) as Hp.
  { unfold probed. by rewrite Hex. }
  rewrite (readWorkloadManifest_cached _ _ _ _ Hc).
  destruct (ReadFile fs _) as [dat|e0] eqn:Hr.
  2:{ intros [= <- <-]. split; [done|]. exists f.
      split_and!; [by left|done..|]. left. eauto. }
  destruct (readWorkloadType _ dat) as [ty|e1] eqn:Hty.
  2:{ intros [= <- <-]. split; [done|]. exists f.
      split_and!; [by left|done..|]. right. eauto. }
  assert (decodes yamlUnmarshalType fs cp (Name f) ty) as Hdec
    by (exists dat; eauto).
  destruct (match_ ty) eqn:Hm.
  - intros H. apply IH in H as [-> H]. split; [done|].
    destruct r as [out|e].
    + destruct H as (added & -> & Hin & Hall). exists (Name f :: added).
      split_and!.
      * by rewrite <- app_assoc.
      * intros x. rewrite elem_of_cons, Hin. split.
        -- intros [->|(f' & Hf' & H)].
           ++ exists f. split_and!; [by left|done..|]. eauto.
           ++ exists f'. split; [by right|done].
        -- intros (f' & [->|Hf']%elem_of_cons & H).
           ++ left. by destruct H as (_ & <- & _).
           ++ right. eauto.
      * intros f' [->|Hf']%elem_of_cons; [eauto|]. by apply Hall.
    + destruct H as (f' & Hf' & H). exists f'. split; [by right|done].
  - intros H. apply IH in H as [-> H]. split; [done|].
    destruct r as [out|e].
    + destruct H as (added & -> & Hin & Hall). exists added.
      split_and!; [done| |].
      * intros x. rewrite Hin. split.
        -- intros (f' & Hf' & H). exists f'. split; [by right|done].
        -- intros (f' & [->|Hf']%elem_of_cons & H); [|by eauto].
           destruct H as (_ & <- & _ & ty' & Hdec' & Hm').
           rewrite (decodes_fun _ _ _ _ _ Hdec Hdec') in Hm. congruence.
      * intros f' [->|Hf']%elem_of_cons; [eauto|]. by apply Hall.
    + destruct H as (f' & Hf' & H). exists f'. split; [by right|done].
Qed.

(** C3 (as the code has it): when the copilot directory is found and can
    be listed, workloadNames returns, as a set, exactly the names of its
    immediate sub-directories whose manifest passes the existence probe
    and decodes to a type accepted by [match_].  Sub-directories whose
    manifest is absent, or whose probe fails, are left out without an
    error.  A manifest that passes the probe but cannot be read or
    decoded makes the whole enumeration fail, with the read error wrapped
    or the decode error as it is; and it fails in no other way. *)
Theorem C3_workloadNames_enumeration ws fs cp ws1 files :
  CopilotDirPath ws fs = (Ok cp, ws1) →
  ReadDir fs cp = Ok files →
  ∃ r, workloadNames yamlUnmarshalType match_ ws fs = (r, ws1) ∧
    match r with
    | Ok names =>
        (∀ x, x ∈ names ↔
           (∃ pm, nodes fs !! (cp ++ [x]) = Some (Dir pm)) ∧
           probed fs cp x ∧
           ∃ ty, decodes yamlUnmarshalType fs cp x ty ∧
                 match_ ty = true) ∧
        (∀ x pm e, nodes fs !! (cp ++ [x]) = Some (Dir pm) →
                   probed fs cp x → ¬ breaks yamlUnmarshalType fs cp x e)
    | Err e =>
        ∃ x pm, nodes fs !! (cp ++ [x]) = Some (Dir pm) ∧
                probed fs cp x ∧ breaks yamlUnmarshalType fs cp x e
    end.
Proof.
  intros Hcp Hrd. unfold workloadNames. rewrite Hcp, Hrd.
  apply CopilotDirPath_Ok in Hcp as [Hc _].
  apply ReadDir_Ok in Hrd as [_ ->].
  destruct (workloadNamesLoop _ _ cp _ [] ws1 fs) as [r ws'] eqn:Hl.
  apply (workloadNamesLoop_spec _ _ _ Hc) in Hl as [-> H].
  exists r. split; [done|]. destruct r as [out|e].
  - destruct H as (added & -> & Hin & Hall). simpl. split.
    + intros x. rewrite Hin, <- elem_of_entries_dir. split.
      * intros (f & Hf & Hd & Hn & H). split; [|done].
        exists f. by split_and!.
      * intros ((f & Hf & Hd & Hn) & Hp & Hty). exists f. by split_and!.
    + intros x pm e Hx Hp Hb.
      destruct (proj2 (elem_of_entries_dir (nodes fs) cp x))
        as (f & Hf & Hd & <-); [eauto|].
      destruct (Hall f Hf Hd Hp) as [ty Hdec].
      by eapply decodes_breaks.
  - destruct H as (f & Hf & Hd & Hp & Hb).
    destruct (proj1 (elem_of_entries_dir (nodes fs) cp (Name f)))
      as [pm Hpm]; [eauto|].
    eauto.
Qed.

End Workloads.

(** ** Discovering Dockerfiles *)

Lemma elem_of_entries_file m p x :
  (∃ f, f ∈ entries m p ∧ IsDir f = false ∧ Name f = x) ↔
  (∃ pm dat, m !! (p ++ [x]) = Some (File pm dat)).
Proof.
  split.
  - intros (f & Hf & Hd & <-). apply elem_of_entries in Hf as (n & Hn & Hi).
    rewrite Hd in Hi. destruct n as [pm dat|]; [|done]. eauto.
  - intros (pm & dat & Hn). exists (mkFileInfo x false).
    split_and!; [|done..]. apply elem_of_entries. simpl. eauto.
Qed.

Lemma elem_of_scanSubFiles subFiles name dirs x :
  x ∈ scanSubFiles subFiles name dirs ↔
  x ∈ dirs ∨ (x = name ∧ hasDockerfile subFiles).
Proof.
  unfold hasDockerfile.
  revert dirs. induction subFiles as [|f rest IH]; intros dirs; simpl.
  - split; [by left|]. intros [?|(_ & g & ?%elem_of_nil & _)]; done.
  - destruct (IsDir f) eqn:Hd.
    + rewrite IH. split; (intros [?|[-> (g & Hg & H)]]; [by left|right]).
      * split; [done|]. exists g. split; [by right|done].
      * split; [done|]. apply elem_of_cons in Hg as [->|Hg]; [|by eauto].
        destruct H. congruence.
    + case_decide as Hn; rewrite IH.
      * rewrite elem_of_app, list_elem_of_singleton. split.
        -- intros [[?| ->]|[-> (g & Hg & H)]]; [by left|right..].
           ++ split; [done|]. exists f. split; [by left|done].
           ++ split; [done|]. exists g. split; [by right|done].
        -- intros [?|[-> _]]; [by left; left|by left; right].
      * split; (intros [?|[-> (g & Hg & H)]]; [by left|right]).
        -- split; [done|]. exists g. split; [by right|done].
        -- split; [done|]. apply elem_of_cons in Hg as [->|Hg]; [|by eauto].
           by destruct H.
Qed.

Lemma scanWdFiles_spec fs files :
  (∀ f, f ∈ files → IsDir f = true →
        ∃ sub, ReadDir fs (relative fs [Name f]) = Ok sub) →
  ∀ dirs, ∃ out,
    scanWdFiles fs files dirs = Ok out ∧
    ∀ x, x ∈ out ↔
      x ∈ dirs ∨ (x = "." ∧ hasDockerfile files) ∨
      (∃ f sub, f ∈ files ∧ IsDir f = true ∧ Name f = x ∧
                ReadDir fs (relative fs [x]) = Ok sub ∧ hasDockerfile sub).
Proof.
  unfold hasDockerfile.
  induction files as [|f rest IH]; intros Hrd dirs; simpl.
  { exists dirs. split; [done|]. intros x. split; [by left|].
    intros [?|[(_ & g & ?%elem_of_nil & _)|(g & sub & ?%elem_of_nil & _)]];
      done. }
  assert (∀ g, g ∈ rest → IsDir g = true →
               ∃ sub, ReadDir fs (relative fs [Name g]) = Ok sub) as Hrest.
  { intros g Hg. apply Hrd. by right. }
  destruct (IsDir f) eqn:Hd; simpl.
  - destruct (Hrd f ltac:(by left) Hd) as [sub Hsub]. rewrite Hsub.
    destruct (IH Hrest (scanSubFiles sub (Name f) dirs)) as (out & -> & Hout).
    exists out. split; [done|]. intros x.
    rewrite Hout, elem_of_scanSubFiles. unfold hasDockerfile. split.
    + intros [[?|[-> Hdf]]|[(-> & g & Hg & H)|(g & s & Hg & H)]].
      * by left.
      * right. right. exists f, sub. split_and!; [by left|done..].
      * right. left. split; [done|]. exists g. split; [by right|done].
      * right. right. exists g, s. split; [by right|done].
    + intros [?|[(-> & g & Hg & H)|(g & s & Hg & H)]].
      * by left; left.
      * apply elem_of_cons in Hg as [->|Hg].
        -- destruct H. congruence.
        -- right. left. eauto.
      * apply elem_of_cons in Hg as [->|Hg].
        -- destruct H as (_ & <- & Hs & Hdf). left. right.
           split; [done|]. rewrite Hsub in Hs. by injection Hs as ->.
        -- right. right. eauto.
  - case_decide as Hn.
    + destruct (IH Hrest (dirs ++ [filepath.Dir_rel (Name f)]))
        as (out & -> & Hout).
      exists out. split; [done|]. intros x. rewrite Hout, elem_of_app.
      rewrite Hn, list_elem_of_singleton.
      change (filepath.Dir_rel dockerfileName) with ".". split.
      * intros [[?| ->]|[(-> & g & Hg & H)|(g & s & Hg & H)]].
        -- by left.
        -- right. left. split; [done|]. exists f. split; [by left|done].
        -- right. left. split; [done|]. exists g. split; [by right|done].
        -- right. right. exists g, s. split; [by right|done].
      * intros [?|[(-> & _)|(g & s & Hg & H)]].
        -- by left; left.
        -- by left; right.
        -- apply elem_of_cons in Hg as [->|Hg].
           ++ destruct H. congruence.
           ++ right. right. eauto.
    + destruct (IH Hrest dirs) as (out & -> & Hout).
      exists out. split; [done|]. intros x. rewrite Hout. split.
      * intros [?|[(-> & g & Hg & H)|(g & s & Hg & H)]].
        -- by left.
        -- right. left. split; [done|]. exists g. split; [by right|done].
        -- right. right. exists g, s. split; [by right|done].
      * intros [?|[(-> & g & Hg & H)|(g & s & Hg & H)]].
        -- by left.
        -- apply elem_of_cons in Hg as [->|Hg]; [by destruct H|].
           right. left. eauto.
        -- apply elem_of_cons in Hg as [->|Hg]; [destruct H; congruence|].
           right. right. eauto.
Qed.

Lemma ReadDir_child fs wd c :
  cwd fs = wd → well_named fs = true →
  Stat fs wd = Ok (Dir true) →
  nodes fs !! (wd ++ [c]) = Some (Dir true) →
  ReadDir fs (relative fs [c]) = Ok (entries (nodes fs) (wd ++ [c])).
Proof.
  intros Hwd Hwn Hst Hc. unfold relative. rewrite Hwd.
  rewrite Join_child by (by eapply well_named_lookup).
  unfold ReadDir. by rewrite Stat_snoc, Hst, Hc.
Qed.

Lemma scanned_qualifies fs wd x :
  cwd fs = wd → well_named fs = true →
  Stat fs wd = Ok (Dir true) →
  (∀ c pm, nodes fs !! (wd ++ [c]) = Some (Dir pm) → pm = true) →
  (x = "." ∧ hasDockerfile (entries (nodes fs) wd)) ∨
  (∃ f sub, f ∈ entries (nodes fs) wd ∧ IsDir f = true ∧ Name f = x ∧
            ReadDir fs (relative fs [x]) = Ok sub ∧ hasDockerfile sub)
  ↔ qualifies fs wd x.
Proof.
  intros Hwd Hwn Hst Hpm. unfold qualifies, hasDockerfile, isFile.
  rewrite (elem_of_entries_file (nodes fs) wd dockerfileName).
  apply or_iff_compat_l. split.
  - intros (f & sub & Hf & Hd & Hn & Hrd & Hdf).
    destruct (proj1 (elem_of_entries_dir (nodes fs) wd x)) as [pm Hx];
      [by eauto|].
    split; [by eauto|]. pose proof (Hpm _ _ Hx) as ->.
    rewrite (ReadDir_child _ _ _ Hwd Hwn Hst Hx) in Hrd.
    injection Hrd as <-.
    apply elem_of_entries_file in Hdf. by rewrite <- app_assoc in Hdf.
  - intros ([pm Hx] & Hdf). pose proof (Hpm _ _ Hx) as ->.
    destruct (proj2 (elem_of_entries_dir (nodes fs) wd x))
      as (f & Hf & Hd & Hn); [by eauto|].
    exists f, (entries (nodes fs) (wd ++ [x])). split_and!; [done..| |].
    + by apply ReadDir_child.
    + apply elem_of_entries_file. by rewrite <- app_assoc.
Qed.

(** No name occurs twice in a listing. *)
Lemma NoDup_entry_names p (l : list (path * node)) :
  NoDup l.*1 → NoDup (Name <$> omap (entry_of p) l).
Proof.
  induction l as [|[k n] l IH]; simpl; [constructor|].
  intros [Hk Hl]%NoDup_cons. unfold entry_of at 1. simpl.
  destruct (child_name p k) as [c|] eqn:Hc; simpl; [|by apply IH].
  apply NoDup_cons. split; [|by apply IH].
  intros (f & Hf & Hin)%list_elem_of_fmap.
  apply list_elem_of_omap in Hin as ([k' n'] & Hin & He).
  unfold entry_of in He. simpl in He.
  destruct (child_name p k') as [c'|] eqn:Hc'; [|done].
  simpl in He. injection He as <-. simpl in Hf. subst c'.
  apply child_name_Some in Hc, Hc'. subst k k'.
  apply Hk. by apply (list_elem_of_fmap_2 fst) in Hin.
Qed.

Lemma NoDup_entries m p : NoDup (Name <$> entries m p).
Proof.
  unfold entries. rewrite sort_by_perm.
  apply NoDup_entry_names, NoDup_fst_map_to_list.
Qed.

Lemma scanSubFiles_none subFiles name dirs :
  dockerfileName ∉ Name <$> subFiles →
  scanSubFiles subFiles name dirs = dirs.
Proof.
  revert dirs. induction subFiles as [|f rest IH]; intros dirs; [done|].
  simpl. intros [Hf Hrest]%not_elem_of_cons.
  destruct (IsDir f); [by apply IH|].
  rewrite decide_False by done. by apply IH.
Qed.

Lemma scanSubFiles_once subFiles name dirs :
  NoDup (Name <$> subFiles) →
  scanSubFiles subFiles name dirs = dirs ∨
  scanSubFiles subFiles name dirs = dirs ++ [name].
Proof.
  revert dirs. induction subFiles as [|f rest IH]; intros dirs; [by left|].
  simpl. intros [Hf Hrest]%NoDup_cons.
  destruct (IsDir f); [by apply IH|].
  case_decide as Hn; [|by apply IH].
  right. apply scanSubFiles_none. by rewrite <- Hn.
Qed.

Lemma scanWdFiles_NoDup fs files :
  NoDup (Name <$> files) →
  (∀ f, f ∈ files → IsDir f = true → Name f ≠ ".") →
  ∀ dirs out,
    NoDup dirs →
    (∀ f, f ∈ files → IsDir f = true → Name f ∉ dirs) →
    ("." ∈ dirs → dockerfileName ∉ Name <$> files) →
    scanWdFiles fs files dirs = Ok out → NoDup out.
Proof.
  induction files as [|f rest IH]; intros Hnd Hdot dirs out Hdirs Hfresh Hone.
  { simpl. by intros [= <-]. }
  simpl in Hnd. apply NoDup_cons in Hnd as [Hf Hrest]. cbn [scanWdFiles].
  assert (∀ g, g ∈ rest → IsDir g = true → Name g ≠ ".") as Hdot'.
  { intros g Hg. apply Hdot. by right. }
  destruct (IsDir f) eqn:Hd; simpl.
  - destruct (ReadDir fs _) as [sub|e] eqn:Hsub; [|done].
    apply ReadDir_Ok in Hsub as [_ ->].
    assert (Name f ∉ dirs) as Hfd by (apply Hfresh; [by left|done]).
    assert (Name f ≠ ".") as Hfdot by (apply Hdot; [by left|done]).
    destruct (scanSubFiles_once (entries (nodes fs) (relative fs [Name f]))
                (Name f) dirs (NoDup_entries _ _)) as [-> | ->].
    + apply IH; try done.
      * intros g Hg. apply Hfresh. by right.
      * intros H. apply Hone in H. simpl in H.
        by apply not_elem_of_cons in H as [_ ?].
    + apply IH; try done.
      * apply NoDup_app. split_and!; [done| |apply NoDup_singleton].
        intros x Hx ->%list_elem_of_singleton. done.
      * intros g Hg Hgd [H|H%list_elem_of_singleton]%elem_of_app.
        -- by apply (Hfresh g); [right|..].
        -- apply Hf. rewrite <- H. by apply list_elem_of_fmap_2.
      * intros [H|H%list_elem_of_singleton]%elem_of_app; [|done].
        apply Hone in H. simpl in H. by apply not_elem_of_cons in H as [_ ?].
  - case_decide as Hn.
    + rewrite Hn.
      change (filepath.Dir_rel dockerfileName) with ".".
      apply IH; try done.
      * apply NoDup_app. split_and!; [done| |apply NoDup_singleton].
        intros x Hx ->%list_elem_of_singleton.
        apply Hone in Hx. simpl in Hx. rewrite Hn in Hx.
        by apply not_elem_of_cons in Hx as [? _].
      * intros g Hg Hgd [H|H%list_elem_of_singleton]%elem_of_app.
        -- by apply (Hfresh g); [right|..].
        -- by apply (Hdot' g).
      * intros _. by rewrite <- Hn.
    + apply IH; try done.
      * intros g Hg. apply Hfresh. by right.
      * intros H. apply Hone in H. simpl in H.
        by apply not_elem_of_cons in H as [_ ?].
Qed.

Lemma entries_not_dot fs p f :
  well_named fs = true → f ∈ entries (nodes fs) p → Name f ≠ ".".
Proof.
  intros Hwn (n & Hn & _)%elem_of_entries.
  apply (well_named_lookup _ _ _ Hwn) in Hn.
  rewrite forallb_app in Hn. apply andb_true_iff in Hn as [_ Hn].
  simpl in Hn. rewrite andb_true_r in Hn. intros Hdot.
  rewrite Hdot in Hn. by vm_compute in Hn.
Qed.

Lemma subdirs_listable_lookup fs wd :
  subdirs_listable fs wd = true →
  ∀ c pm, nodes fs !! (wd ++ [c]) = Some (Dir pm) → pm = true.
Proof.
  unfold subdirs_listable. rewrite forallb_forall. intros H c pm Hc.
  specialize (H (wd ++ [c], Dir pm)). simpl in H.
  rewrite (proj2 (child_name_Some wd _ c) eq_refl) in H.
  destruct pm; [done|]. apply H.
  apply list_elem_of_In. by apply elem_of_map_to_list.
Qed.

(** C6: ListDockerfiles looks at the working directory and at its immediate
    sub-directories only.  When these can be listed (and the instance was
    made for the directory the process runs in), it returns the names
    of the qualifying directories, each once, in ascending byte-wise
    order, each with
    "/Dockerfile" appended, the working directory being named "."; when no
    directory qualifies it fails with ErrDockerfileNotFound carrying the
    working directory. *)
Theorem C6_ListDockerfiles_two_levels ws fs :
  cwd fs = workingDir ws →
  well_named fs = true →
  Stat fs (workingDir ws) = Ok (Dir true) →
  subdirs_listable fs (workingDir ws) = true →
  ((∀ dir, ¬ qualifies fs (workingDir ws) dir) →
     ListDockerfiles ws fs = Err (ErrDockerfileNotFound (workingDir ws))) ∧
  ((∃ dir, qualifies fs (workingDir ws) dir) →
     ∃ directories,
       ListDockerfiles ws fs =
         Ok (map (λ dir, dir +:+ "/Dockerfile") directories) ∧
       Sorted String.le directories ∧ NoDup directories ∧
       (∀ dir, dir ∈ directories ↔ qualifies fs (workingDir ws) dir) ∧
       ("." ∈ directories → "./Dockerfile" ∈
          map (λ dir, dir +:+ "/Dockerfile") directories)).
Proof.
  intros Hwd Hwn Hst Hls. unfold ListDockerfiles, ReadDir. rewrite Hst.
  pose proof (subdirs_listable_lookup _ _ Hls) as Hpm.
  destruct (scanWdFiles_spec fs (entries (nodes fs) (workingDir ws)))
    with (dirs := @nil string) as (out & Hscan & Hout).
  { intros f Hf Hd.
    destruct (proj1 (elem_of_entries_dir (nodes fs) (workingDir ws) (Name f)))
      as [pm Hx]; [by eauto|].
    pose proof (Hpm _ _ Hx) as ->. eexists. by apply ReadDir_child. }
  assert (NoDup out) as Hnd.
  { apply (scanWdFiles_NoDup fs (entries (nodes fs) (workingDir ws)))
      with (dirs := @nil string); [apply NoDup_entries| |constructor| | |done].
    - intros f Hf _. by eapply entries_not_dot.
    - intros f _ _ ?%elem_of_nil. done.
    - by intros ?%elem_of_nil. }
  rewrite Hscan.
  assert (∀ x, x ∈ out ↔ qualifies fs (workingDir ws) x) as Hq.
  { intros x. rewrite Hout, <- (scanned_qualifies fs _ x Hwd Hwn Hst Hpm).
    split; [|by right]. by intros [?%elem_of_nil|?]. }
  split.
  - intros Hnone. destruct out as [|x out]; [done|].
    destruct (Hnone x). apply Hq. by left.
  - intros [dir Hdir]. apply Hq in Hdir.
    rewrite decide_False by (by destruct out; [apply elem_of_nil in Hdir|]).
    exists (sort_by id out). split_and!; [done| | | |].
    + apply (sort_by_sorted id).
    + by rewrite sort_by_perm.
    + intros x. by rewrite elem_of_sort_by.
    + intros H.
      by apply (list_elem_of_fmap_2 (λ dir, dir +:+ "/Dockerfile")) in H.
Qed.

(** ** Removing the summary *)

(** DeleteWorkspaceFile touches nothing but the path it names. *)
Lemma DeleteWorkspaceFile_frame ws fs err fs1 q :
  DeleteWorkspaceFile ws fs = (err, fs1) →
  q ≠ relative fs [CopilotDirName; SummaryFileName] →
  nodes fs1 !! q = nodes fs !! q.
Proof.
  unfold DeleteWorkspaceFile, Remove. intros H Hq.
  destruct (relative fs _) as [|c p] eqn:Hp; [by injection H as _ <-|].
  destruct (Stat fs (c :: p)) as [[pm d|pm]|e].
  - injection H as _ <-. simpl. by rewrite lookup_delete_ne.
  - destruct (entries _ _); injection H as _ <-; [|done].
    simpl. by rewrite lookup_delete_ne.
  - by injection H as _ <-.
Qed.

(** C7 at a working directory below the project root: the marker directory
    is found one level up and its summary is read, but DeleteWorkspaceFile
    looks for "copilot/.workspace" under the working directory, fails, and
    leaves the summary of the marker directory in place. *)
Theorem C7_DeleteWorkspaceFile_misses_marker :
  let ws := New disk_in_src in
  CopilotDirPath ws disk_in_src =
    (Ok ["proj"; "copilot"], set_copilotDir ws ["proj"; "copilot"]) ∧
  (Workspace_Summary yaml.UnmarshalSummary ws disk_in_src).1 =
    Ok {| Application := "acme" |} ∧
  DeleteWorkspaceFile ws disk_in_src =
    (Some (PathError ENOENT ["proj"; "src"; "copilot"; ".workspace"]),
     disk_in_src) ∧
  isFile disk_in_src ["proj"; "copilot"; ".workspace"].
Proof.
  split_and!; [by vm_compute..|]. eexists _, _. by vm_compute.
Qed.

(** ** The statements on concrete disks *)

(** The marker four levels up is found. *)
Lemma C1_witness_depth_4 :
  let ws := New (planted 4) in
  copilotDir ws = None ∧
  filepath.Base (workingDir ws) ≠ CopilotDirName ∧
  CopilotDirPath ws (planted 4) =
    (Ok ["r"; "copilot"], set_copilotDir ws ["r"; "copilot"]).
Proof.
  split_and!; [done|by vm_compute|].
  apply (C1_CopilotDirPath_five_levels (New (planted 4)) (planted 4) 4).
  - reflexivity.
  - by vm_compute.
  - intros k Hk _.
    do 4 (destruct k as [|k]; [by vm_compute|]). lia.
  - intros _. by vm_compute.
Defined.

(** The marker five levels up is not found: five levels are searched, and
    the working directory is the first of them.
    This is so whether depth 5 means that the marker is a child of the
    fifth ancestor of the working directory, or that it is the fifth
    ancestor itself. *)
Lemma C1_counterexample_depth_5 :
  let ws := New (planted 5) in
  let ws' := New (planted_within 5) in
  (workingDir ws = ["r"; "1"; "2"; "3"; "4"; "5"] ∧
   markerAt 5 (workingDir ws) = ["r"; "copilot"] ∧
   DirExists (planted 5) ["r"; "copilot"] = (true, None) ∧
   CopilotDirPath ws (planted 5) =
     (Err (errWorkspaceNotFound ["r"; "1"; "2"; "3"; "4"; "5"] "copilot" 5),
      ws)) ∧
  (workingDir ws' = ["r"; "copilot"; "1"; "2"; "3"; "4"; "5"] ∧
   ancestor 5 (workingDir ws') = ["r"; "copilot"] ∧
   DirExists (planted_within 5) ["r"; "copilot"] = (true, None) ∧
   CopilotDirPath ws' (planted_within 5) =
     (Err (errWorkspaceNotFound ["r"; "copilot"; "1"; "2"; "3"; "4"; "5"]
             "copilot" 5), ws')).
Proof. split_and!; by vm_compute. Qed.

Lemma C2_witness :
  ∃ p ws1 fs1,
    WriteServiceManifest (payload "type: X") "svcA" (New disk_project)
      disk_project = (Ok p, ws1, fs1) ∧
    WriteServiceManifest (payload "type: Y") "svcA" ws1 fs1
      = (Err (ErrFileExists p), ws1, fs1) ∧
    ∃ data1, MarshalBinary (payload "type: X") = Ok data1 ∧
             ReadServiceManifest "svcA" ws1 fs1 = (Ok data1, ws1).
Proof.
  eexists _, _, _. split; [by vm_compute|].
  eapply (C2_WriteServiceManifest_no_overwrite
            (payload "type: X") (payload "type: Y") (text "type: Y") "svcA"
            (New disk_project) disk_project).
  - by vm_compute.
  - reflexivity.
Defined.

(** The enumeration of the example of the specification: {a, c}. *)
Lemma C3_witness :
  ∃ r, workloadNames yaml.UnmarshalType (String.eqb "X")
         (New disk_workloads) disk_workloads
       = (r, set_copilotDir (New disk_workloads) ["proj"; "copilot"]) ∧
    match r with
    | Ok names =>
        (∀ x, x ∈ names ↔
           (∃ pm, nodes disk_workloads !! (["proj"; "copilot"] ++ [x])
                  = Some (Dir pm)) ∧
           probed disk_workloads ["proj"; "copilot"] x ∧
           ∃ ty, decodes yaml.UnmarshalType disk_workloads
                   ["proj"; "copilot"] x ty ∧ String.eqb "X" ty = true) ∧
        (∀ x pm e, nodes disk_workloads !! (["proj"; "copilot"] ++ [x])
                   = Some (Dir pm) →
                   probed disk_workloads ["proj"; "copilot"] x →
                   ¬ breaks yaml.UnmarshalType disk_workloads
                       ["proj"; "copilot"] x e)
    | Err e =>
        ∃ x pm, nodes disk_workloads !! (["proj"; "copilot"] ++ [x])
                = Some (Dir pm) ∧
                probed disk_workloads ["proj"; "copilot"] x ∧
                breaks yaml.UnmarshalType disk_workloads
                  ["proj"; "copilot"] x e
    end.
Proof.
  eapply (C3_workloadNames_enumeration yaml.UnmarshalType (String.eqb "X")
            (New disk_workloads) disk_workloads).
  - by vm_compute.
  - by vm_compute.
Defined.

(** A manifest that exists but may not be read is not left out: the whole
    enumeration fails. *)
Lemma C3_counterexample_unreadable_manifest :
  let ws := New disk_unreadable in
  Exists disk_unreadable ["proj"; "copilot"; "db"; "manifest.yml"]
    = (true, None) ∧
  ReadFile disk_unreadable ["proj"; "copilot"; "db"; "manifest.yml"]
    = Err (PathError EACCES ["proj"; "copilot"; "db"; "manifest.yml"]) ∧
  (workloadNames yaml.UnmarshalType (String.eqb "X") ws disk_unreadable).1
    = Err (Errorf "read manifest for workload db"
             (PathError EACCES ["proj"; "copilot"; "db"; "manifest.yml"])).
Proof. split_and!; by vm_compute. Qed.

Lemma C4_witness :
  ∃ ws1 fs1,
    Create yaml.MarshalSummary yaml.UnmarshalSummary "acme"
      (New disk_fresh) disk_fresh = (None, ws1, fs1) ∧
    Create yaml.MarshalSummary yaml.UnmarshalSummary "globex" ws1 fs1
      = (Some (errHasExistingApplication "acme"), ws1, fs1) ∧
    Workspace_Summary yaml.UnmarshalSummary ws1 fs1
      = (Ok {| Application := "acme" |}, ws1).
Proof.
  eexists _, _. split; [by vm_compute|].
  eapply (C4_Create_other_application yaml.MarshalSummary
            yaml.UnmarshalSummary "acme" "globex" (New disk_fresh) disk_fresh).
  - intros value H. vm_compute in H. injection H as <-. by vm_compute.
  - done.
  - by vm_compute.
Defined.

Lemma C5_witness :
  ∃ ws1 fs1,
    Create yaml.MarshalSummary yaml.UnmarshalSummary "acme"
      (New disk_fresh) disk_fresh = (None, ws1, fs1) ∧
    Create yaml.MarshalSummary yaml.UnmarshalSummary "acme" ws1 fs1
      = (None, ws1, fs1) ∧
    Workspace_Summary yaml.UnmarshalSummary ws1 fs1
      = (Ok {| Application := "acme" |}, ws1).
Proof.
  destruct (C5_Create_idempotent yaml.MarshalSummary yaml.UnmarshalSummary
              "acme" (New disk_fresh) disk_fresh) as [Hfirst Hsecond].
  - intros value H. vm_compute in H. injection H as <-. by vm_compute.
  - destruct Hfirst as (ws1 & fs1 & H1).
    + by vm_compute.
    + reflexivity.
    + eexists. by vm_compute.
    + exists ws1, fs1. split; [done|]. by apply Hsecond.
Defined.

(** The example of the specification. *)
Lemma C6_witness :
  ((∀ dir, ¬ qualifies disk_docker ["app"] dir) →
     ListDockerfiles (New disk_docker) disk_docker
       = Err (ErrDockerfileNotFound ["app"])) ∧
  ((∃ dir, qualifies disk_docker ["app"] dir) →
     ∃ directories,
       ListDockerfiles (New disk_docker) disk_docker =
         Ok (map (λ dir, dir +:+ "/Dockerfile") directories) ∧
       Sorted String.le directories ∧ NoDup directories ∧
       (∀ dir, dir ∈ directories ↔ qualifies disk_docker ["app"] dir) ∧
       ("." ∈ directories → "./Dockerfile" ∈
          map (λ dir, dir +:+ "/Dockerfile") directories)).
Proof.
  apply (C6_ListDockerfiles_two_levels (New disk_docker) disk_docker).
  - reflexivity.
  - by vm_compute.
  - by vm_compute.
  - by vm_compute.
Defined.

Lemma C8_witness :
  let ws1 := set_copilotDir (New (planted 2)) ["r"; "copilot"] in
  CopilotDirPath (New (planted 2)) (planted 2) = (Ok ["r"; "copilot"], ws1) ∧
  copilotDir ws1 = Some ["r"; "copilot"] ∧
  ∀ fs', CopilotDirPath ws1 fs' = (Ok ["r"; "copilot"], ws1).
Proof.
  split; [by vm_compute|].
  apply (C8_CopilotDirPath_memoized (New (planted 2)) (planted 2)).
  by vm_compute.
Defined.

(** The example of the specification. *)
Lemma C9_witness :
  ∃ p ws1 fs1,
    WriteAddon (payload "Resources: {}") "svcA" "policy"
      (New disk_project) disk_project = (Ok p, ws1, fs1) ∧
    ∃ cp data,
      copilotDir ws1 = Some cp ∧
      p = filepath.Join cp ["svcA"; "addons"; "policy" +:+ ".yml"] ∧
      MarshalBinary (payload "Resources: {}") = Ok data ∧
      ReadAddon "svcA" ("policy" +:+ ".yml") ws1 fs1 = (Ok data, ws1).
Proof.
  eexists _, _, _. split; [by vm_compute|].
  eapply (C9_WriteAddon_ReadAddon (payload "Resources: {}") "svcA" "policy"
            (New disk_project) disk_project).
  by vm_compute.
Defined.

(** A copilot directory that may not be searched: the probe of its summary
    fails, and Summary answers as if there were none. *)
Lemma C10_witness :
  let ws1 := set_copilotDir (New disk_locked) ["proj"; "copilot"] in
  Exists disk_locked ["proj"; "copilot"; ".workspace"]
    = (false, Some (PathError EACCES ["proj"; "copilot"; ".workspace"])) ∧
  Workspace_Summary yaml.UnmarshalSummary (New disk_locked) disk_locked
    = (Err errNoAssociatedApplication, ws1).
Proof.
  split; [by vm_compute|].
  apply (C10_Summary_probe_error_is_not_associated yaml.UnmarshalSummary
           (New disk_locked) disk_locked ["proj"; "copilot"; ".workspace"]).
  - by vm_compute.
  - right. eexists. by vm_compute.
Defined.

(** ** The examples of the specification, run *)

Example locate_by_depth :
  map (λ d, (CopilotDirPath (New (planted d)) (planted d)).1)
      [0; 1; 2; 3; 4]
    = replicate 5 (Ok ["r"; "copilot"]) ∧
  map (λ d, (CopilotDirPath (New (planted d)) (planted d)).1) [5; 6]
    = [Err (errWorkspaceNotFound ["r"; "1"; "2"; "3"; "4"; "5"] "copilot" 5);
       Err (errWorkspaceNotFound ["r"; "1"; "2"; "3"; "4"; "5"; "6"]
              "copilot" 5)].
Proof. split; by vm_compute. Qed.

Example locate_inside_marker :
  map (λ d, (CopilotDirPath (New (planted_within d)) (planted_within d)).1)
      [0; 1; 2; 3]
    = replicate 4 (Ok ["r"; "copilot"]) ∧
  (CopilotDirPath (New (planted_within 4)) (planted_within 4)).1
    = Err (errWorkspaceNotFound ["r"; "copilot"; "1"; "2"; "3"; "4"]
             "copilot" 5).
Proof. split; by vm_compute. Qed.

Example enumerate_type_X :
  (workloadNames yaml.UnmarshalType (String.eqb "X")
     (New disk_workloads) disk_workloads).1 = Ok ["a"; "c"].
Proof. by vm_compute. Qed.

Example discover_dockerfiles :
  ListDockerfiles (New disk_docker) disk_docker
    = Ok ["./Dockerfile"; "sub1/Dockerfile"] ∧
  ListDockerfiles (New disk_project) disk_project
    = Err (ErrDockerfileNotFound ["proj"]).
Proof. split; by vm_compute. Qed.

(** From the project root the summary is removed, and nothing else. *)
Example delete_from_root :
  let fs := {| cwd := ["proj"]; nodes := nodes disk_in_src |} in
  ∃ fs1, DeleteWorkspaceFile (New fs) fs = (None, fs1) ∧
         nodes fs1 = delete ["proj"; "copilot"; ".workspace"] (nodes fs).
Proof. eexists. split; by vm_compute. Qed.

(** * Further properties of the package *)

(** ** What a write leaves alone *)

Lemma Stat_prefix fs p q n :
  Stat fs (p ++ q) = Ok n → ∃ n', Stat fs p = Ok n'.
Proof.
  revert n. induction q as [|c q IH] using rev_ind; intros n.
  - rewrite app_nil_r. eauto.
  - rewrite app_assoc, Stat_snoc.
    destruct (Stat fs (p ++ q)) as [[pm d|[|]]|[]] eqn:E; try done.
    intros _. by eapply IH.
Qed.

(** An entry made where nothing resolved hides nothing that did. *)
Lemma insert_preserves fs p n0 q n :
  (∀ m, Stat fs p ≠ Ok m) →
  Stat fs q = Ok n →
  Stat (set_nodes fs (<[p := n0]> (nodes fs))) q = Ok n.
Proof.
  intros Hp Hq. rewrite Stat_insert_frame; [done|].
  intros [k ->]. apply Stat_prefix in Hq as [n' Hn']. by eapply Hp.
Qed.

Lemma create_preserves fs p n0 fs' q n :
  (∀ m, Stat fs p ≠ Ok m) →
  create fs p n0 = Ok fs' →
  Stat fs q = Ok n → Stat fs' q = Ok n.
Proof.
  intros Hp Hc Hq. apply create_Ok in Hc as (_ & _ & ->).
  by apply insert_preserves.
Qed.

Lemma Mkdir_preserves fs p fs' q n :
  Mkdir fs p = Ok fs' → Stat fs q = Ok n → Stat fs' q = Ok n.
Proof.
  unfold Mkdir. destruct (Stat fs p) as [m|e] eqn:Hp; [done|].
  destruct (IsNotExist e); [|done]. intros Hc.
  eapply create_preserves; [|done]. intros m. congruence.
Qed.

Lemma MkdirAll_rev_preserves rp : ∀ fs o fs' q n,
  MkdirAll_rev fs rp = (o, fs') → Stat fs q = Ok n → Stat fs' q = Ok n.
Proof.
  induction rp as [|c rp IH]; intros fs o fs' q n; cbn [MkdirAll_rev].
  - destruct (Stat fs (rev [])) as [[pm d|pm]|e]; try (by intros [= _ <-]).
    destruct (Mkdir fs []) as [fs2|e2] eqn:Hm; intros [= _ <-]; [|done].
    by eapply Mkdir_preserves.
  - destruct (Stat fs (rev (c :: rp))) as [[pm d|pm]|e];
      try (by intros [= _ <-]).
    destruct (MkdirAll_rev fs rp) as [[e1|] fs1] eqn:Hrec.
    + intros [= _ <-]. by eapply IH.
    + intros H Hq. pose proof (IH _ _ _ _ _ Hrec Hq) as Hq1.
      destruct (Mkdir fs1 (rev (c :: rp))) as [fs2|e2] eqn:Hm.
      * injection H as _ <-. by eapply Mkdir_preserves.
      * by destruct (Stat fs1 (rev (c :: rp))) as [[pm d|pm]|e'];
          injection H as _ <-.
Qed.

Lemma MkdirAll_preserves fs p o fs' q n :
  MkdirAll fs p = (o, fs') → Stat fs q = Ok n → Stat fs' q = Ok n.
Proof. apply MkdirAll_rev_preserves. Qed.

Lemma MkdirAll_rev_cwd rp : ∀ fs o fs',
  MkdirAll_rev fs rp = (o, fs') → cwd fs' = cwd fs.
Proof.
  assert (∀ fs p fs', Mkdir fs p = Ok fs' → cwd fs' = cwd fs) as Hmk.
  { intros fs p fs'. unfold Mkdir.
    destruct (Stat fs p) as [m|e]; [done|].
    destruct (IsNotExist e); [|done].
    by intros (_ & _ & ->)%create_Ok. }
  induction rp as [|c rp IH]; intros fs o fs'; cbn [MkdirAll_rev].
  - destruct (Stat fs (rev [])) as [[pm d|pm]|e]; try (by intros [= _ <-]).
    destruct (Mkdir fs []) as [fs2|e2] eqn:Hm; intros [= _ <-]; [|done].
    by eapply Hmk.
  - destruct (Stat fs (rev (c :: rp))) as [[pm d|pm]|e];
      try (by intros [= _ <-]).
    destruct (MkdirAll_rev fs rp) as [[e1|] fs1] eqn:Hrec.
    + intros [= _ <-]. by eapply IH.
    + intros H. rewrite <- (IH _ _ _ Hrec).
      destruct (Mkdir fs1 (rev (c :: rp))) as [fs2|e2] eqn:Hm.
      * injection H as _ <-. by eapply Hmk.
      * by destruct (Stat fs1 (rev (c :: rp))) as [[pm d|pm]|e'];
          injection H as _ <-.
Qed.

(** X1: write only adds.  Whatever a call of write returns, every file and
    directory that resolved before the call resolves to the same node
    after it, and the working directory of the process is the same: an
    existing entry is neither changed nor removed, also when the call
    fails half-way. *)
Theorem X1_write_preserves_entries data elem ws fs r ws1 fs1 :
  write data elem ws fs = (r, ws1, fs1) →
  cwd fs1 = cwd fs ∧
  ∀ q n, Stat fs q = Ok n → Stat fs1 q = Ok n.
Proof.
  unfold write. destruct (CopilotDirPath ws fs) as [[cp|e] ws'].
  2:{ by intros [= _ _ <-]. }
  destruct (MkdirAll fs _) as [o fsm] eqn:Hmk.
  pose proof (MkdirAll_rev_cwd _ _ _ _ Hmk) as Hcwd.
  pose proof (λ q n, MkdirAll_preserves _ _ _ _ q n Hmk) as Hpre.
  destruct o as [e|]; [by intros [= _ _ <-]|].
  destruct (Exists fsm _) as [[|] [e|]] eqn:Hex; try (by intros [= _ _ <-]).
  apply Exists_false in Hex as [e He].
  destruct (WriteFile fsm _ data) as [fs2|e2] eqn:Hw; intros [= _ _ <-];
    [|done].
  unfold WriteFile in Hw. rewrite He in Hw.
  destruct (IsNotExist e); [|done]. split.
  - apply create_Ok in Hw as (_ & _ & ->). done.
  - intros q n Hq. eapply create_preserves; [|done|by apply Hpre].
    intros m. congruence.
Qed.

Lemma X1_witness :
  ∃ r ws1 fs1,
    write (text "type: X") ["svcA"; manifestFileName]
      (New disk_project) disk_project = (r, ws1, fs1) ∧
    cwd fs1 = cwd disk_project ∧
    ∀ q n, Stat disk_project q = Ok n → Stat fs1 q = Ok n.
Proof.
  eexists _, _, _. split; [by vm_compute|].
  eapply (X1_write_preserves_entries (text "type: X")
            ["svcA"; manifestFileName] (New disk_project) disk_project).
  by vm_compute.
Defined.

(** X2: write refuses whatever is at the target.  When the joined path
    resolves to an entry, be it a file or a directory and whoever made it,
    write fails with ErrFileExists carrying that path and leaves the disk
    as it is.  (The side condition rules out the root directory being a
    regular file.) *)
Theorem X2_write_refuses_existing data elem ws fs cp ws1 n :
  CopilotDirPath ws fs = (Ok cp, ws1) →
  Stat fs (filepath.Join cp elem) = Ok n →
  filepath.Join cp elem ≠ [] ∨ is_dir n = true →
  write data elem ws fs =
    (Err (ErrFileExists (filepath.Join cp elem)), ws1, fs).
Proof.
  intros Hcp Hn Hside. unfold write. rewrite Hcp.
  assert (∃ pm, Stat fs (filepath.Dir (filepath.Join cp elem)) = Ok (Dir pm))
    as [pm Hd].
  { destruct (decide (filepath.Join cp elem = [])) as [Hnil|Hne].
    - destruct Hside as [?|Hdir]; [done|]. rewrite Hnil in *. simpl.
      destruct n as [|pm]; [done|]. eauto.
    - exists true. by eapply Stat_parent. }
  rewrite (MkdirAll_existing _ _ _ Hd). by rewrite (Exists_Stat _ _ _ Hn).
Qed.

(** A directory where the buildspec should go. *)
Lemma X2_witness :
  let fs := disk ["proj"]
              [([], Dir true); (["proj"], Dir true);
               (["proj"; "copilot"], Dir true);
               (["proj"; "copilot"; "buildspec.yml"], Dir true)] in
  WritePipelineBuildspec (payload "version: 0.2") (New fs) fs =
    (Err (ErrFileExists ["proj"; "copilot"; "buildspec.yml"]),
     set_copilotDir (New fs) ["proj"; "copilot"], fs).
Proof.
  intros fs. unfold WritePipelineBuildspec. simpl.
  apply (X2_write_refuses_existing (text "version: 0.2") [buildspecFileName]
           (New fs) fs ["proj"; "copilot"] _ (Dir true)).
  - by vm_compute.
  - by vm_compute.
  - by right.
Defined.

(** ** The pipeline manifest *)

Lemma pipelineManifestPath_cached ws fs cp :
  copilotDir ws = Some cp →
  pipelineManifestPath ws fs =
    (Ok (filepath.Join cp [pipelineFileName]), ws).
Proof.
  intros Hc. unfold pipelineManifestPath.
  by rewrite (CopilotDirPath_cached _ _ _ Hc).
Qed.

(** X3: the pipeline manifest round trip.  After WritePipelineManifest has
    succeeded, ReadPipelineManifest returns the bytes written, and a second
    WritePipelineManifest fails with ErrFileExists for the same path and
    changes nothing. *)
Theorem X3_WritePipelineManifest_ReadPipelineManifest
    marshaler ws fs p ws1 fs1 :
  WritePipelineManifest marshaler ws fs = (Ok p, ws1, fs1) →
  ∃ data,
    MarshalBinary marshaler = Ok data ∧
    ReadPipelineManifest ws1 fs1 = (Ok data, ws1) ∧
    ∀ marshaler2 data2,
      MarshalBinary marshaler2 = Ok data2 →
      WritePipelineManifest marshaler2 ws1 fs1 =
        (Err (ErrFileExists p), ws1, fs1).
Proof.
  unfold WritePipelineManifest, ReadPipelineManifest.
  destruct (MarshalBinary marshaler) as [data|e]; [|done]. intros H.
  apply write_Ok in H as (cp & Hc & -> & Hp & Hd).
  exists data. split_and!; [done| |].
  - rewrite (pipelineManifestPath_cached _ _ _ Hc).
    rewrite (Exists_Stat _ _ _ Hp). by eapply read_existing.
  - intros m2 data2 ->. by eapply write_existing.
Qed.

Lemma X3_witness :
  ∃ p ws1 fs1,
    WritePipelineManifest (payload "name: pipe") (New disk_project)
      disk_project = (Ok p, ws1, fs1) ∧
    ∃ data,
      MarshalBinary (payload "name: pipe") = Ok data ∧
      ReadPipelineManifest ws1 fs1 = (Ok data, ws1) ∧
      ∀ marshaler2 data2,
        MarshalBinary marshaler2 = Ok data2 →
        WritePipelineManifest marshaler2 ws1 fs1 =
          (Err (ErrFileExists p), ws1, fs1).
Proof.
  eexists _, _, _. split; [by vm_compute|].
  apply (X3_WritePipelineManifest_ReadPipelineManifest
           (payload "name: pipe") (New disk_project) disk_project).
  by vm_compute.
Defined.

(** X4: what ReadPipelineManifest reports when the pipeline manifest does
    not resolve.  If the probe finds that nothing is there, the answer is
    ErrNoPipelineInWorkspace; if the probe itself fails, its error is
    returned as it is (where Summary would answer "not associated"). *)
Theorem X4_ReadPipelineManifest_unresolved ws fs cp ws1 e :
  CopilotDirPath ws fs = (Ok cp, ws1) →
  Stat fs (filepath.Join cp [pipelineFileName]) = Err e →
  ReadPipelineManifest ws fs =
    (Err (if IsNotExist e then ErrNoPipelineInWorkspace else e), ws1).
Proof.
  intros Hcp He. unfold ReadPipelineManifest, pipelineManifestPath.
  rewrite Hcp. unfold Exists. rewrite He. by destruct (IsNotExist e).
Qed.

Lemma X4_witness :
  ReadPipelineManifest (New disk_project) disk_project =
    (Err ErrNoPipelineInWorkspace,
     set_copilotDir (New disk_project) ["proj"; "copilot"]) ∧
  ReadPipelineManifest (New disk_locked) disk_locked =
    (Err (PathError EACCES ["proj"; "copilot"; "pipeline.yml"]),
     set_copilotDir (New disk_locked) ["proj"; "copilot"]).
Proof.
  split.
  - apply (X4_ReadPipelineManifest_unresolved (New disk_project)
             disk_project ["proj"; "copilot"] _
             (PathError ENOENT ["proj"; "copilot"; "pipeline.yml"]));
      by vm_compute.
  - apply (X4_ReadPipelineManifest_unresolved (New disk_locked)
             disk_locked ["proj"; "copilot"] _
             (PathError EACCES ["proj"; "copilot"; "pipeline.yml"]));
      by vm_compute.
Defined.

(** ** Services and jobs *)

(** X5: services and jobs share one name space.  After a service manifest
    has been written for a name, WriteJobManifest for that name fails with
    ErrFileExists and changes nothing, and ReadJobManifest of the name
    returns the bytes of the service manifest. *)
Theorem X5_service_and_job_share_names
    m1 m2 data2 name ws fs p ws1 fs1 :
  WriteServiceManifest m1 name ws fs = (Ok p, ws1, fs1) →
  MarshalBinary m2 = Ok data2 →
  WriteJobManifest m2 name ws1 fs1 = (Err (ErrFileExists p), ws1, fs1) ∧
  ∃ data1, MarshalBinary m1 = Ok data1 ∧
           ReadJobManifest name ws1 fs1 = (Ok data1, ws1).
Proof.
  unfold WriteServiceManifest, WriteJobManifest, ReadJobManifest,
    readWorkloadManifest.
  intros H1 ->. destruct (MarshalBinary m1) as [data1|e]; [|done].
  apply write_Ok in H1 as (cp & Hc & -> & Hp & Hd). split.
  - by eapply write_existing.
  - exists data1. split; [done|].
    by rewrite (read_existing _ _ _ _ _ Hc Hp).
Qed.

Lemma X5_witness :
  ∃ p ws1 fs1,
    WriteServiceManifest (payload "type: X") "front" (New disk_project)
      disk_project = (Ok p, ws1, fs1) ∧
    WriteJobManifest (payload "type: Scheduled Job") "front" ws1 fs1
      = (Err (ErrFileExists p), ws1, fs1) ∧
    ∃ data1, MarshalBinary (payload "type: X") = Ok data1 ∧
             ReadJobManifest "front" ws1 fs1 = (Ok data1, ws1).
Proof.
  eexists _, _, _. split; [by vm_compute|].
  eapply (X5_service_and_job_share_names (payload "type: X")
            (payload "type: Scheduled Job") _ "front"
            (New disk_project) disk_project).
  - by vm_compute.
  - reflexivity.
Defined.

(** ** Addons *)

Lemma has_slash_app a b : has_slash (a +:+ b) = has_slash a || has_slash b.
Proof.
  induction a as [|c a IH]; [done|].
  change (has_slash (String c (a +:+ b)) =
          has_slash (String c a) || has_slash b).
  simpl. by rewrite IH, orb_assoc.
Qed.

Lemma string_length_app a b :
  String.length (a +:+ b) = String.length a + String.length b.
Proof.
  induction a as [|c a IH]; [done|].
  change (S (String.length (a +:+ b)) = S (String.length a + String.length b)).
  by rewrite IH.
Qed.

(** A name without a separator, with the extension, is a file name. *)
Lemma ordinary_yml name :
  has_slash name = false → ordinary (name +:+ ymlFileExtension) = true.
Proof.
  intros Hs. unfold ordinary. rewrite has_slash_app, Hs.
  rewrite andb_true_r. apply negb_true_iff, bool_decide_eq_false.
  intros H.
  assert (String.length (name +:+ ymlFileExtension) ≤ 2)%nat as Hl.
  { destruct H as [-> | [-> | ->]]; simpl; lia. }
  rewrite string_length_app in Hl. simpl in Hl. lia.
Qed.

(** Joining one more file name appends it. *)
Lemma Join_snoc base elem c :
  ordinary c = true →
  filepath.Join base (elem ++ [c]) = filepath.Join base elem ++ [c].
Proof.
  intros Hc. unfold filepath.Join, filepath.Clean.
  rewrite flat_map_app. simpl. rewrite app_nil_r.
  apply andb_true_iff in Hc as Hs. destruct Hs as [_ Hs].
  apply negb_true_iff in Hs. rewrite (split_slash_no_slash _ _ Hs).
  change ("" +:+ c) with c.
  rewrite app_assoc, fold_left_app. simpl. by apply ordinary_step.
Qed.

(** X6: an addon that was written is listed.  After WriteAddon has
    succeeded for a name without a separator, ReadAddonsDir of the same
    service succeeds and the file name [name ++ ".yml"] is among the names
    it returns. *)
Theorem X6_WriteAddon_ReadAddonsDir content svc name ws fs p ws1 fs1 :
  WriteAddon content svc name ws fs = (Ok p, ws1, fs1) →
  has_slash name = false →
  ∃ names, ReadAddonsDir svc ws1 fs1 = (Ok names, ws1) ∧
           name +:+ ".yml" ∈ names.
Proof.
  unfold WriteAddon, ReadAddonsDir.
  destruct (MarshalBinary content) as [data|e]; [|done]. intros H Hs.
  apply write_Ok in H as (cp & Hc & -> & Hp & Hd).
  rewrite (CopilotDirPath_cached _ _ _ Hc).
  change [svc; addonsDirName; name +:+ ymlFileExtension]
    with ([svc; addonsDirName] ++ [name +:+ ymlFileExtension]) in Hp, Hd.
  rewrite (Join_snoc _ _ _ (ordinary_yml _ Hs)) in Hp, Hd.
  unfold filepath.Dir in Hd. rewrite removelast_last in Hd.
  unfold ReadDir. rewrite Hd. eexists. split; [done|].
  apply (list_elem_of_fmap_2' Name _ (mkFileInfo (name +:+ ".yml") false));
    [|done].
  apply elem_of_entries. simpl. exists (File true data).
  split; [|done]. by apply Stat_lookup.
Qed.

Lemma X6_witness :
  ∃ p ws1 fs1,
    WriteAddon (payload "Resources: {}") "svcA" "policy"
      (New disk_project) disk_project = (Ok p, ws1, fs1) ∧
    ∃ names, ReadAddonsDir "svcA" ws1 fs1 = (Ok names, ws1) ∧
             "policy" +:+ ".yml" ∈ names.
Proof.
  eexists _, _, _. split; [by vm_compute|].
  eapply (X6_WriteAddon_ReadAddonsDir (payload "Resources: {}") "svcA"
            "policy" (New disk_project) disk_project).
  - by vm_compute.
  - reflexivity.
Defined.

(** ** The order and the content of an enumeration *)

Lemma StronglySorted_sublist {A} (R : relation A) l k :
  k `sublist_of` l → StronglySorted R l → StronglySorted R k.
Proof.
  induction 1 as [|x k l Hs IH|x k l Hs IH]; intros Hl; [done|..].
  - apply StronglySorted_inv in Hl as [Hl Hx]. constructor; [by apply IH|].
    eapply Forall_forall. intros y Hy. eapply Forall_forall in Hx; [done|].
    by eapply elem_of_sublist.
  - apply StronglySorted_inv in Hl as [Hl _]. by apply IH.
Qed.

(** Names are listed in ascending order. *)
Lemma entries_names_sorted m p :
  StronglySorted String.le (Name <$> entries m p).
Proof.
  apply Sorted_StronglySorted; [apply _|].
  apply (Sorted_fmap Name (key_le Name) String.le); [done|].
  apply sort_by_sorted.
Qed.

Lemma workloadNamesLoop_sublist unmarshalType match_ cp fs :
  ∀ files names ws out ws',
    workloadNamesLoop unmarshalType match_ cp files names ws fs
      = (Ok out, ws') →
    ∃ added, out = names ++ added ∧ added `sublist_of` (Name <$> files).
Proof.
  induction files as [|f files IH]; intros names ws out ws'.
  { simpl. intros [= <-]. exists []. by rewrite app_nil_r. }
  cbn [workloadNamesLoop].
  assert (∀ names ws,
            workloadNamesLoop unmarshalType match_ cp files names ws fs
              = (Ok out, ws') →
            ∃ added, out = names ++ added ∧
                     added `sublist_of` (Name <$> f :: files)) as Hskip.
  { intros names0 ws0 H. apply IH in H as (added & -> & Hsub).
    exists added. split; [done|]. by apply sublist_cons. }
  destruct (IsDir f); simpl; [|by apply Hskip].
  destruct (Exists fs _) as [[|] o]; simpl; [|by apply Hskip].
  destruct (readWorkloadManifest (Name f) ws fs) as [[dat|e] ws2]; [|done].
  destruct (readWorkloadType unmarshalType dat) as [ty|e]; [|done].
  destruct (match_ ty); [|by apply Hskip].
  intros H. apply IH in H as (added & -> & Hsub).
  exists (Name f :: added). split; [by rewrite <- app_assoc|].
  by apply sublist_skip.
Qed.

(** X7: the order of an enumeration.  The names workloadNames returns are
    a sub-sequence of the names of the listing of the copilot directory:
    they come in ascending byte-wise order, and none comes twice. *)
Theorem X7_workloadNames_in_listing_order
    unmarshalType match_ ws fs names ws1 :
  workloadNames unmarshalType match_ ws fs = (Ok names, ws1) →
  ∃ cp, copilotDir ws1 = Some cp ∧
    names `sublist_of` (Name <$> entries (nodes fs) cp) ∧
    Sorted String.le names ∧ NoDup names.
Proof.
  unfold workloadNames.
  destruct (CopilotDirPath ws fs) as [[cp|e] ws'] eqn:Hcp; [|done].
  apply CopilotDirPath_Ok in Hcp as [Hc _].
  destruct (ReadDir fs cp) as [files|e] eqn:Hrd; [|done].
  apply ReadDir_Ok in Hrd as [_ ->]. intros H.
  pose proof H as H'.
  apply (workloadNamesLoop_spec _ _ _ _ _ Hc) in H' as [-> _].
  apply workloadNamesLoop_sublist in H as (added & -> & Hsub).
  exists cp. simpl. split_and!; [done..| |].
  - apply StronglySorted_Sorted.
    eapply StronglySorted_sublist; [done|apply entries_names_sorted].
  - eapply sublist_NoDup; [apply NoDup_entries|exact Hsub].
Qed.

Lemma X7_witness :
  ∃ cp, copilotDir (set_copilotDir (New disk_workloads) ["proj"; "copilot"])
          = Some cp ∧
    ["a"; "c"] `sublist_of` (Name <$> entries (nodes disk_workloads) cp) ∧
    Sorted String.le ["a"; "c"] ∧ NoDup ["a"; "c"].
Proof.
  apply (X7_workloadNames_in_listing_order yaml.UnmarshalType
           (String.eqb "X") (New disk_workloads) disk_workloads).
  by vm_compute.
Defined.

(** X8: no workload is both a service and a job.  When no type is both a
    service type and a job type, the names ServiceNames returns and the
    names JobNames returns (on the same disk) have nothing in common. *)
Theorem X8_ServiceNames_JobNames_disjoint
    unmarshalType ServiceTypes JobTypes ws fs svcs ws1 jobs ws2 :
  (∀ t, t ∈ ServiceTypes → t ∉ JobTypes) →
  ServiceNames unmarshalType ServiceTypes ws fs = (Ok svcs, ws1) →
  JobNames unmarshalType JobTypes ws1 fs = (Ok jobs, ws2) →
  ∀ x, x ∈ svcs → x ∉ jobs.
Proof.
  intros Hdisj. unfold ServiceNames, JobNames, workloadNames.
  destruct (CopilotDirPath ws fs) as [[cp|e] ws'] eqn:Hcp; [|done].
  apply CopilotDirPath_Ok in Hcp as [Hc _].
  destruct (ReadDir fs cp) as [files|e] eqn:Hrd; [|done].
  intros Hs. apply (workloadNamesLoop_spec _ _ _ _ _ Hc) in Hs as [-> Hs].
  rewrite (CopilotDirPath_cached _ _ _ Hc), Hrd.
  intros Hj. apply (workloadNamesLoop_spec _ _ _ _ _ Hc) in Hj as [-> Hj].
  destruct Hs as (sadded & -> & Hsin & _).
  destruct Hj as (jadded & -> & Hjin & _).
  simpl. intros x Hxs Hxj.
  apply Hsin in Hxs as (_ & _ & _ & _ & _ & ty & Hdec & Hty).
  apply Hjin in Hxj as (_ & _ & _ & _ & _ & ty' & Hdec' & Hty').
  rewrite <- (decodes_fun _ _ _ _ _ _ Hdec Hdec') in Hty'.
  apply existsb_exists in Hty as (t & Ht & Heq%String.eqb_eq).
  apply existsb_exists in Hty' as (t' & Ht' & Heq'%String.eqb_eq).
  subst t t'. apply (Hdisj ty); by apply list_elem_of_In.
Qed.

Lemma X8_witness :
  ∃ svcs ws1 jobs ws2,
    ServiceNames yaml.UnmarshalType ["X"] (New disk_workloads)
      disk_workloads = (Ok svcs, ws1) ∧
    JobNames yaml.UnmarshalType ["Y"] ws1 disk_workloads = (Ok jobs, ws2) ∧
    svcs = ["a"; "c"] ∧ jobs = ["b"] ∧
    ∀ x, x ∈ svcs → x ∉ jobs.
Proof.
  eexists _, _, _, _. split; [by vm_compute|].
  split; [by vm_compute|]. split; [done|]. split; [done|].
  eapply (X8_ServiceNames_JobNames_disjoint yaml.UnmarshalType ["X"] ["Y"]
            (New disk_workloads) disk_workloads).
  - intros t ->%list_elem_of_singleton [=]%list_elem_of_singleton.
  - by vm_compute.
  - by vm_compute.
Defined.

(** X9: a workload that was written is enumerated.  After
    WriteServiceManifest has written, under a file name, a manifest whose
    type is accepted by [match_], every enumeration with [match_] that
    succeeds on the resulting disk returns that name.  (All names on the
    disk are taken to be file names.) *)
Theorem X9_written_workload_is_enumerated
    unmarshalType match_ marshaler data ty name ws fs p ws1 fs1 names ws2 :
  WriteServiceManifest marshaler name ws fs = (Ok p, ws1, fs1) →
  MarshalBinary marshaler = Ok data →
  readWorkloadType unmarshalType data = Ok ty →
  match_ ty = true →
  ordinary name = true →
  well_named fs1 = true →
  workloadNames unmarshalType match_ ws1 fs1 = (Ok names, ws2) →
  name ∈ names.
Proof.
  unfold WriteServiceManifest. intros Hw Hm Hty Hmatch Hname Hwn.
  rewrite Hm in Hw. apply write_Ok in Hw as (cp & Hc & -> & Hp & Hd).
  unfold workloadNames. rewrite (CopilotDirPath_cached _ _ _ Hc).
  destruct (ReadDir fs1 cp) as [files|e] eqn:Hrd; [|done].
  apply ReadDir_Ok in Hrd as [Hcp ->]. intros Hloop.
  apply (workloadNamesLoop_spec _ _ _ _ _ Hc) in Hloop
    as [_ (added & -> & Hin & _)].
  simpl. apply Hin.
  assert (filepath.Join cp [name; manifestFileName] = cp ++ [name] ++
            [manifestFileName]) as Hjoin.
  { change [name; manifestFileName] with ([name] ++ [manifestFileName]).
    rewrite (Join_snoc _ _ manifestFileName) by done.
    rewrite Join_child; [by rewrite <- app_assoc|].
    rewrite forallb_app. simpl. rewrite Hname.
    rewrite (well_named_lookup _ _ _ Hwn (Stat_lookup _ _ _ Hcp)). done. }
  assert (nodes fs1 !! (cp ++ [name]) = Some (Dir true)) as Hdir.
  { apply Stat_lookup. rewrite Hjoin, app_assoc in Hd.
    unfold filepath.Dir in Hd. by rewrite removelast_last in Hd. }
  destruct (proj2 (elem_of_entries_dir (nodes fs1) cp name))
    as (f & Hf & Hfd & Hfn); [by eauto|].
  exists f. split_and!; [done..| |].
  - unfold probed. by rewrite (Exists_Stat _ _ _ Hp).
  - exists ty. split; [|done]. exists data.
    split; [by apply ReadFile_Stat|done].
Qed.

Lemma X9_witness :
  ∃ p ws1 fs1 names ws2,
    WriteServiceManifest (mkMarshaler (Ok (line "type: X"))) "front"
      (New disk_workloads) disk_workloads = (Ok p, ws1, fs1) ∧
    workloadNames yaml.UnmarshalType (String.eqb "X") ws1 fs1
      = (Ok names, ws2) ∧
    "front" ∈ names.
Proof.
  eexists _, _, _, _, _. split; [by vm_compute|]. split; [by vm_compute|].
  eapply (X9_written_workload_is_enumerated yaml.UnmarshalType
            (String.eqb "X") (mkMarshaler (Ok (line "type: X")))
            (line "type: X") "X" "front" (New disk_workloads) disk_workloads).
  - by vm_compute.
  - reflexivity.
  - by vm_compute.
  - reflexivity.
  - by vm_compute.
  - by vm_compute.
  - by vm_compute.
Defined.

(** ** What a search returns *)

Lemma searchParents_inv fs tries : ∀ dir r,
  searchParents fs tries dir = r →
  match r with
  | Ok (Some p) =>
      ∃ k, k < tries ∧ p = markerAt k dir ∧
           DirExists fs p = (true, None) ∧
           ∀ j, j < k → DirExists fs (markerAt j dir) = (false, None)
  | Ok None =>
      ∀ j, j < tries → DirExists fs (markerAt j dir) = (false, None)
  | Err e =>
      ∃ k, k < tries ∧ (DirExists fs (markerAt k dir)).2 = Some e ∧
           ∀ j, j < k → DirExists fs (markerAt j dir) = (false, None)
  end.
Proof.
  induction tries as [|tries IH]; intros dir r <-; cbn [searchParents].
  { simpl. intros j Hj. lia. }
  destruct (DirExists fs (filepath.Join dir [CopilotDirName]))
    as [b [e|]] eqn:Hp.
  - assert (∃ k, k < S tries ∧
              (DirExists fs (markerAt k dir)).2 = Some e ∧
              ∀ j, j < k → DirExists fs (markerAt j dir) = (false, None))
      as H; [|by destruct b].
    exists 0. split_and!; [lia| |intros j Hj; lia].
    unfold markerAt. cbn [ancestor]. by rewrite Hp.
  - destruct b; simpl.
    + exists 0. split_and!; [lia|done..|]. intros j Hj. lia.
    + specialize (IH (filepath.Dir dir) _ eq_refl).
      assert (∀ k, (∀ j, j < k →
                 DirExists fs (markerAt j (filepath.Dir dir)) = (false, None)) →
               ∀ j, j < S k → DirExists fs (markerAt j dir) = (false, None))
        as Hshift.
      { intros k Hk [|j] Hj; [done|]. apply Hk. lia. }
      destruct (searchParents fs tries (filepath.Dir dir)) as [[p|]|e].
      * destruct IH as (k & Hk & -> & Hd & Hlt).
        exists (S k). split_and!; [lia|done..|by apply Hshift].
      * by apply Hshift.
      * destruct IH as (k & Hk & He & Hlt).
        exists (S k). split_and!; [lia|done|by apply Hshift].
Qed.

(** X10: what a search returns.  When nothing is cached and the working
    directory is not itself called "copilot", a path CopilotDirPath returns
    is the nearest marker: a directory "copilot" in the working directory
    or in one of its four nearest ancestors, no nearer level holding one;
    it is cached.  A failure caches nothing, and it is either the
    not-found error, all five probes having answered "no", or the error of
    the first probe that failed. *)
Theorem X10_CopilotDirPath_returns_nearest ws fs r ws1 :
  copilotDir ws = None →
  filepath.Base (workingDir ws) ≠ CopilotDirName →
  CopilotDirPath ws fs = (r, ws1) →
  match r with
  | Ok p =>
      ws1 = set_copilotDir ws p ∧
      ∃ k, k < maximumParentDirsToSearch ∧
           p = markerAt k (workingDir ws) ∧
           DirExists fs p = (true, None) ∧
           ∀ j, j < k →
                DirExists fs (markerAt j (workingDir ws)) = (false, None)
  | Err e =>
      ws1 = ws ∧
      ((e = errWorkspaceNotFound (workingDir ws) CopilotDirName
              maximumParentDirsToSearch ∧
        ∀ j, j < maximumParentDirsToSearch →
             DirExists fs (markerAt j (workingDir ws)) = (false, None)) ∨
       (∃ k, k < maximumParentDirsToSearch ∧
             (DirExists fs (markerAt k (workingDir ws))).2 = Some e ∧
             ∀ j, j < k →
                  DirExists fs (markerAt j (workingDir ws)) = (false, None)))
  end.
Proof.
  intros Hc Hb. unfold CopilotDirPath. rewrite Hc.
  rewrite decide_False by done.
  pose proof (searchParents_inv fs maximumParentDirsToSearch
                (workingDir ws) _ eq_refl) as Hinv.
  destruct (searchParents fs maximumParentDirsToSearch (workingDir ws))
    as [[p|]|e]; intros [= <- <-].
  - by split.
  - split; [done|]. by left.
  - split; [done|]. by right.
Qed.

(** A copilot directory two levels up, behind a directory that may not be
    searched: the first probe fails, and its error is the result. *)
Lemma X10_witness :
  let fs := disk ["r"; "a"; "b"]
              [([], Dir true); (["r"], Dir true); (["r"; "copilot"], Dir true);
               (["r"; "a"], Dir false); (["r"; "a"; "b"], Dir true)] in
  let e := PathError EACCES ["r"; "a"; "b"; "copilot"] in
  CopilotDirPath (New fs) fs = (Err e, New fs) ∧
  New fs = New fs ∧
  ((e = errWorkspaceNotFound (workingDir (New fs)) CopilotDirName
          maximumParentDirsToSearch ∧
    ∀ j, j < maximumParentDirsToSearch →
         DirExists fs (markerAt j (workingDir (New fs))) = (false, None)) ∨
   (∃ k, k < maximumParentDirsToSearch ∧
         (DirExists fs (markerAt k (workingDir (New fs)))).2 = Some e ∧
         ∀ j, j < k →
              DirExists fs (markerAt j (workingDir (New fs)))
                = (false, None))).
Proof.
  intros fs e. split; [by vm_compute|].
  apply (X10_CopilotDirPath_returns_nearest (New fs) fs (Err e) (New fs)).
  - reflexivity.
  - by vm_compute.
  - by vm_compute.
Defined.

(** ** What Create leaves alone *)

Lemma walk_Err m : ∀ rest pre e,
  walk m pre rest = Err e → ∃ en p, e = PathError en p.
Proof.
  induction rest as [|c rest IH]; intros pre e; cbn [walk].
  - destruct (m !! pre); [done|]. intros [= <-]. eauto.
  - destruct (m !! pre) as [[pm d|[|]]|].
    + intros [= <-]. eauto.
    + apply IH.
    + intros [= <-]. eauto.
    + intros [= <-]. eauto.
Qed.

(** No error of the file system is the package's "no application". *)
Lemma Stat_Err_As fs p e :
  Stat fs p = Err e → As_errNoAssociatedApplication e = false.
Proof. by intros (en & q & ->)%walk_Err. Qed.

Lemma DirExists_Err_As fs p e :
  (DirExists fs p).2 = Some e → As_errNoAssociatedApplication e = false.
Proof.
  unfold DirExists. destruct (Stat fs p) as [n|e0] eqn:Hs; [done|].
  destruct (IsNotExist e0); [done|]. intros [= <-]. by eapply Stat_Err_As.
Qed.

Lemma ReadFile_Err_As fs p e :
  ReadFile fs p = Err e → As_errNoAssociatedApplication e = false.
Proof.
  unfold ReadFile. destruct (Stat fs p) as [[[|] d|pm]|e0] eqn:Hs;
    intros [= <-]; try done.
  by eapply Stat_Err_As.
Qed.

Lemma CopilotDirPath_Err_As ws fs e ws1 :
  CopilotDirPath ws fs = (Err e, ws1) →
  As_errNoAssociatedApplication e = false.
Proof.
  unfold CopilotDirPath. destruct (copilotDir ws); [done|].
  case_decide; [done|].
  pose proof (searchParents_inv fs maximumParentDirsToSearch
                (workingDir ws) _ eq_refl) as Hinv.
  destruct (searchParents fs maximumParentDirsToSearch (workingDir ws))
    as [[p|]|e0]; intros Hr; [done|by injection Hr as <- _|].
  injection Hr as <- _. destruct Hinv as (k & _ & He & _).
  by eapply DirExists_Err_As.
Qed.

Lemma Mkdir_cwd fs p fs' : Mkdir fs p = Ok fs' → cwd fs' = cwd fs.
Proof.
  unfold Mkdir. destruct (Stat fs p) as [m|e]; [done|].
  destruct (IsNotExist e); [|done]. by intros (_ & _ & ->)%create_Ok.
Qed.

(** X11: Create only adds.  With a decoder that never returns the
    package's own "no application" error, whatever Create returns, every
    file and directory that resolved before the call resolves to the same
    node after it: an existing summary, readable or not, is never
    overwritten, and nothing is removed. *)
Theorem X11_Create_preserves_entries
    marshal unmarshal appName ws fs o ws1 fs1 :
  (∀ value e, unmarshal value = Err e →
              As_errNoAssociatedApplication e = false) →
  Create marshal unmarshal appName ws fs = (o, ws1, fs1) →
  cwd fs1 = cwd fs ∧
  ∀ q n, Stat fs q = Ok n → Stat fs1 q = Ok n.
Proof.
  intros Hcodec. unfold Create.
  destruct (createCopilotDir ws fs) as [[o0 ws0] fs0] eqn:Hmk.
  assert (cwd fs0 = cwd fs ∧ ∀ q n, Stat fs q = Ok n → Stat fs0 q = Ok n)
    as [Hcwd Hpre].
  { unfold createCopilotDir in Hmk.
    destruct (CopilotDirPath ws fs) as [[cp|e] ws'].
    - by injection Hmk as _ _ <-.
    - destruct (Mkdir fs _) as [fs'|e'] eqn:Hm; injection Hmk as _ _ <-;
        [|done].
      split; [by eapply Mkdir_cwd|]. intros q n. by eapply Mkdir_preserves. }
  destruct o0 as [e0|]; [by intros [= _ _ <-]|].
  destruct (Workspace_Summary unmarshal ws0 fs0) as [[s|e] ws2] eqn:Hs.
  { case_decide; by intros [= _ _ <-]. }
  destruct (As_errNoAssociatedApplication e) eqn:Has;
    [|by intros [= _ _ <-]].
  unfold Workspace_Summary in Hs.
  destruct (summaryPath ws0 fs0) as [[sp|e1] ws3] eqn:Hsp.
  2:{ injection Hs as <- <-.
      apply summaryPath_Err, CopilotDirPath_Err_As in Hsp. congruence. }
  destruct (Exists fs0 sp) as [b oe] eqn:Hex. destruct b.
  { destruct (ReadFile fs0 sp) as [value|e2] eqn:Hr; injection Hs as Hs <-.
    - apply Hcodec in Hs. congruence.
    - subst e2. apply ReadFile_Err_As in Hr. congruence. }
  injection Hs as _ <-.
  apply Exists_false in Hex as [e3 He3].
  apply summaryPath_Ok in Hsp as (cp & Hcp & ->).
  unfold writeSummary. rewrite (summaryPath_cached _ _ _ Hcp).
  destruct (marshal _) as [value|e4]; [|by intros [= _ _ <-]].
  destruct (WriteFile fs0 _ value) as [fs2|e5] eqn:Hw; intros [= _ _ <-];
    [|done].
  unfold WriteFile in Hw. rewrite He3 in Hw.
  destruct (IsNotExist e3); [|done]. split.
  - apply create_Ok in Hw as (_ & _ & ->). done.
  - intros q n Hq. eapply create_preserves; [|done|by apply Hpre].
    intros m. congruence.
Qed.

Lemma X11_witness :
  ∃ o ws1 fs1,
    Create yaml.MarshalSummary yaml.UnmarshalSummary "acme"
      (New disk_fresh) disk_fresh = (o, ws1, fs1) ∧
    cwd fs1 = cwd disk_fresh ∧
    ∀ q n, Stat disk_fresh q = Ok n → Stat fs1 q = Ok n.
Proof.
  eexists _, _, _. split; [by vm_compute|].
  eapply (X11_Create_preserves_entries yaml.MarshalSummary
            yaml.UnmarshalSummary "acme" (New disk_fresh) disk_fresh).
  - intros value e. unfold yaml.UnmarshalSummary, yaml.field.
    destruct (yaml.strip_prefix _ _); [done|]. by intros [= <-].
  - by vm_compute.
Defined.

(** X12: Create does not repair a summary it cannot use.  When the summary
    file of the marker directory exists but cannot be read (no permission,
    or a directory of that name), or is read but does not decode, Create
    returns that very error and leaves disk and summary as they are. *)
Theorem X12_Create_keeps_unusable_summary
    marshal unmarshal appName ws fs cp ws1 n e :
  CopilotDirPath ws fs = (Ok cp, ws1) →
  Stat fs (filepath.Join cp [SummaryFileName]) = Ok n →
  ReadFile fs (filepath.Join cp [SummaryFileName]) = Err e ∨
  (∃ value, ReadFile fs (filepath.Join cp [SummaryFileName]) = Ok value ∧
            unmarshal value = Err e ∧
            As_errNoAssociatedApplication e = false) →
  Create marshal unmarshal appName ws fs = (Some e, ws1, fs).
Proof.
  intros Hcp Hn Hbad. unfold Create, createCopilotDir. rewrite Hcp.
  apply CopilotDirPath_Ok in Hcp as [Hc _].
  unfold Workspace_Summary. rewrite (summaryPath_cached _ _ _ Hc).
  rewrite (Exists_Stat _ _ _ Hn).
  destruct Hbad as [Hr|(value & Hr & Hu & Has)]; rewrite Hr.
  - by rewrite (ReadFile_Err_As _ _ _ Hr).
  - by rewrite Hu, Has.
Qed.

(** A summary that is not a YAML record of the expected shape. *)
Lemma X12_witness :
  let fs := disk ["proj"]
              [([], Dir true); (["proj"], Dir true);
               (["proj"; "copilot"], Dir true);
               (["proj"; "copilot"; ".workspace"], File true (line "acme"))] in
  Create yaml.MarshalSummary yaml.UnmarshalSummary "acme" (New fs) fs =
    (Some (codecError "yaml: unmarshal errors"),
     set_copilotDir (New fs) ["proj"; "copilot"], fs).
Proof.
  intros fs.
  apply (X12_Create_keeps_unusable_summary yaml.MarshalSummary
           yaml.UnmarshalSummary "acme" (New fs) fs ["proj"; "copilot"] _
           (File true (line "acme"))).
  - by vm_compute.
  - by vm_compute.
  - right. exists (line "acme"). split_and!; by vm_compute.
Defined.

(** ** A sub-directory that cannot be read *)

Lemma scanWdFiles_Err fs files :
  (∃ f e, f ∈ files ∧ IsDir f = true ∧
          ReadDir fs (relative fs [Name f]) = Err e) →
  ∀ dirs, ∃ g e',
    g ∈ files ∧ IsDir g = true ∧
    ReadDir fs (relative fs [Name g]) = Err e' ∧
    scanWdFiles fs files dirs = Err (Errorf "read directory" e').
Proof.
  induction files as [|w files IH]; intros (f & e & Hf & Hd & He) dirs.
  { by apply elem_of_nil in Hf. }
  assert (ReadDir fs (relative fs [Name w]) ≠ Err e ∨ IsDir w = false →
          ∀ dirs', ∃ g e',
            g ∈ w :: files ∧ IsDir g = true ∧
            ReadDir fs (relative fs [Name g]) = Err e' ∧
            scanWdFiles fs files dirs' = Err (Errorf "read directory" e'))
    as Hrest.
  { intros Hw dirs'. apply elem_of_cons in Hf as [->|Hf].
    { destruct Hw; congruence. }
    destruct (IH (ex_intro _ f (ex_intro _ e (conj Hf (conj Hd He)))) dirs')
      as (g & e' & Hg & Hgd & Hge & Hscan).
    exists g, e'. split_and!; [|done..]. apply elem_of_cons. by right. }
  cbn [scanWdFiles]. destruct (IsDir w) eqn:Hw; simpl.
  - destruct (ReadDir fs (relative fs [Name w])) as [sub|e0] eqn:Hr.
    + apply Hrest. by left.
    + exists w, e0. split_and!; [|done..]. apply elem_of_cons. by left.
  - destruct (decide (Name w = dockerfileName)); apply Hrest; by right.
Qed.

(** X13: one sub-directory that cannot be read fails the discovery.  When
    the working directory is listed and holds a sub-directory whose listing
    fails, ListDockerfiles returns the wrapped error of such a
    sub-directory, whatever Dockerfiles the working directory and the other
    sub-directories hold. *)
Theorem X13_ListDockerfiles_unreadable_subdirectory ws fs wdFiles f e :
  ReadDir fs (workingDir ws) = Ok wdFiles →
  f ∈ wdFiles → IsDir f = true →
  ReadDir fs (relative fs [Name f]) = Err e →
  ∃ g e', g ∈ wdFiles ∧ IsDir g = true ∧
          ReadDir fs (relative fs [Name g]) = Err e' ∧
          ListDockerfiles ws fs = Err (Errorf "read directory" e').
Proof.
  intros Hwd Hf Hd He. unfold ListDockerfiles. rewrite Hwd.
  destruct (scanWdFiles_Err fs wdFiles
              (ex_intro _ f (ex_intro _ e (conj Hf (conj Hd He)))) [])
    as (g & e' & Hg & Hgd & Hge & ->).
  by exists g, e'.
Qed.

(** A Dockerfile in the working directory, beside a directory that may not
    be listed. *)
Lemma X13_witness :
  let fs := disk ["app"]
              [([], Dir true); (["app"], Dir true);
               (["app"; "Dockerfile"], File true (line "FROM scratch"));
               (["app"; "vault"], Dir false)] in
  ∃ g e', g ∈ entries (nodes fs) ["app"] ∧ IsDir g = true ∧
          ReadDir fs (relative fs [Name g]) = Err e' ∧
          ListDockerfiles (New fs) fs = Err (Errorf "read directory" e').
Proof.
  intros fs.
  apply (X13_ListDockerfiles_unreadable_subdirectory (New fs) fs
           (entries (nodes fs) ["app"]) (mkFileInfo "vault" true)
           (PathError EACCES ["app"; "vault"])).
  - by vm_compute.
  - apply elem_of_entries. exists (Dir false). by vm_compute.
  - reflexivity.
  - by vm_compute.
Defined.

(** ** The repository test *)

(** X14: IsInGitRepository looks at the working directory only.  In a
    working directory the process may search, the answer is whether that
    directory has an entry ".git", of whatever kind: a ".git" in a parent
    directory does not count.  In a working directory the process may not
    search, the answer is yes. *)
Theorem X14_IsInGitRepository_working_directory_only fs pm :
  forallb ordinary (cwd fs) = true →
  Stat fs (cwd fs) = Ok (Dir pm) →
  IsInGitRepository fs =
    if pm then bool_decide (is_Some (nodes fs !! (cwd fs ++ [".git"])))
    else true.
Proof.
  intros Hord Hwd. unfold IsInGitRepository, relative.
  rewrite Join_child.
  2:{ rewrite forallb_app, Hord. reflexivity. }
  rewrite Stat_snoc, Hwd. destruct pm; [|done].
  destruct (nodes fs !! (cwd fs ++ [".git"])) as [n|] eqn:Hg.
  - symmetry. by apply bool_decide_eq_true.
  - symmetry. apply bool_decide_eq_false. by intros [n Hn].
Qed.

(** The process in a sub-directory of a repository. *)
Lemma X14_witness :
  let fs := disk ["proj"; "src"]
              [([], Dir true); (["proj"], Dir true);
               (["proj"; ".git"], Dir true); (["proj"; "src"], Dir true)] in
  IsInGitRepository fs =
    bool_decide (is_Some (nodes fs !! (["proj"; "src"] ++ [".git"]))) ∧
  IsInGitRepository fs = false.
Proof.
  intros fs. split; [|by vm_compute].
  apply (X14_IsInGitRepository_working_directory_only fs true).
  - by vm_compute.
  - by vm_compute.
Defined.

(** ** Removing the summary from the project root *)

Lemma Stat_delete_same fs p c n :
  Stat fs (p ++ [c]) = Ok n →
  Stat (set_nodes fs (delete (p ++ [c]) (nodes fs))) (p ++ [c])
    = Err (PathError ENOENT (p ++ [c])).
Proof.
  intros Hn. rewrite Stat_snoc.
  rewrite Stat_delete_frame by apply snoc_not_prefix.
  assert (p = filepath.Dir (p ++ [c])) as Hp.
  { unfold filepath.Dir. by rewrite removelast_last. }
  rewrite Hp at 1. rewrite (Stat_parent _ _ n); [|by destruct p|done].
  simpl. by rewrite lookup_delete_eq.
Qed.

(** X15: from the project root, DeleteWorkspaceFile dissociates the
    workspace.  When the marker directory is the child "copilot" of the
    process' working directory and holds a summary file,
    DeleteWorkspaceFile removes that file and nothing else; Summary then
    reports that no application is associated, and Create succeeds for any
    application name, writing the new summary. *)
Theorem X15_DeleteWorkspaceFile_from_root
    marshal unmarshal ws fs ws1 pm value :
  forallb ordinary (cwd fs) = true →
  CopilotDirPath ws fs = (Ok (cwd fs ++ [CopilotDirName]), ws1) →
  Stat fs (cwd fs ++ [CopilotDirName; SummaryFileName])
    = Ok (File pm value) →
  ∃ fs1,
    DeleteWorkspaceFile ws1 fs = (None, fs1) ∧
    (∀ q, q ≠ cwd fs ++ [CopilotDirName; SummaryFileName] →
          nodes fs1 !! q = nodes fs !! q) ∧
    Workspace_Summary unmarshal ws1 fs1
      = (Err errNoAssociatedApplication, ws1) ∧
    ∀ appName value',
      marshal {| Application := appName |} = Ok value' →
      ∃ fs2,
        Create marshal unmarshal appName ws1 fs1 = (None, ws1, fs2) ∧
        ReadFile fs2 (cwd fs ++ [CopilotDirName; SummaryFileName])
          = Ok value'.
Proof.
  intros Hord Hcp Hsum.
  apply CopilotDirPath_Ok in Hcp as [Hc _].
  set (cp := cwd fs ++ [CopilotDirName]) in Hc.
  assert (cwd fs ++ [CopilotDirName; SummaryFileName]
          = cp ++ [SummaryFileName]) as Hsp.
  { unfold cp. by rewrite <- app_assoc. }
  rewrite Hsp in *.
  assert (forallb ordinary (cp ++ [SummaryFileName]) = true) as Hordsp.
  { unfold cp. rewrite !forallb_app, Hord. reflexivity. }
  assert (filepath.Join cp [SummaryFileName] = cp ++ [SummaryFileName])
    as Hjoin by by apply Join_child.
  assert (relative fs [CopilotDirName; SummaryFileName]
          = cp ++ [SummaryFileName]) as Hrel.
  { unfold relative.
    change [CopilotDirName; SummaryFileName]
      with ([CopilotDirName] ++ [SummaryFileName]).
    rewrite Join_snoc by done. f_equal. apply Join_child.
    rewrite forallb_app, Hord. reflexivity. }
  set (fs1 := set_nodes fs (delete (cp ++ [SummaryFileName]) (nodes fs))).
  assert (Stat fs1 cp = Ok (Dir true)) as Hdir.
  { unfold fs1. rewrite Stat_delete_frame by apply snoc_not_prefix.
    assert (cp = filepath.Dir (cp ++ [SummaryFileName])) as ->.
    { unfold filepath.Dir. by rewrite removelast_last. }
    eapply Stat_parent; [|done]. by destruct cp. }
  pose proof (Stat_delete_same _ _ _ _ Hsum) as Hgone. fold fs1 in Hgone.
  assert (Workspace_Summary unmarshal ws1 fs1
          = (Err errNoAssociatedApplication, ws1)) as Hno.
  { unfold Workspace_Summary. rewrite (summaryPath_cached _ _ _ Hc), Hjoin.
    unfold Exists. by rewrite Hgone. }
  exists fs1. split_and!.
  - unfold DeleteWorkspaceFile, Remove. rewrite Hrel, Hsum.
    by destruct (cp ++ [SummaryFileName]) eqn:E;
      [apply app_eq_nil in E as [_ [=]]|].
  - intros q Hq. unfold fs1. simpl. by rewrite lookup_delete_ne.
  - done.
  - intros appName value' Hm.
    assert (create fs1 (cp ++ [SummaryFileName]) (File true value')
            = Ok (set_nodes fs1 (<[cp ++ [SummaryFileName] := File true value']>
                                   (nodes fs1)))) as Hcreate.
    { apply create_intro; [by destruct cp|].
      unfold filepath.Dir. by rewrite removelast_last. }
    eexists. split.
    + unfold Create. rewrite (createCopilotDir_cached _ _ _ Hc), Hno. simpl.
      unfold writeSummary. rewrite (summaryPath_cached _ _ _ Hc), Hjoin, Hm.
      unfold WriteFile. rewrite Hgone. simpl. by rewrite Hcreate.
    + apply ReadFile_Stat, Stat_insert_same; [by destruct cp|].
      unfold filepath.Dir. by rewrite removelast_last.
Qed.

Lemma X15_witness :
  ∃ fs1,
    DeleteWorkspaceFile (set_copilotDir (New disk_workloads) ["proj"; "copilot"])
      disk_workloads = (None, fs1) ∧
    (∀ q, q ≠ cwd disk_workloads ++ [CopilotDirName; SummaryFileName] →
          nodes fs1 !! q = nodes disk_workloads !! q) ∧
    Workspace_Summary yaml.UnmarshalSummary
      (set_copilotDir (New disk_workloads) ["proj"; "copilot"]) fs1
      = (Err errNoAssociatedApplication,
         set_copilotDir (New disk_workloads) ["proj"; "copilot"]) ∧
    ∀ appName value',
      yaml.MarshalSummary {| Application := appName |} = Ok value' →
      ∃ fs2,
        Create yaml.MarshalSummary yaml.UnmarshalSummary appName
          (set_copilotDir (New disk_workloads) ["proj"; "copilot"]) fs1
          = (None, set_copilotDir (New disk_workloads) ["proj"; "copilot"],
             fs2) ∧
        ReadFile fs2 (cwd disk_workloads ++ [CopilotDirName; SummaryFileName])
          = Ok value'.
Proof.
  apply (X15_DeleteWorkspaceFile_from_root yaml.MarshalSummary
           yaml.UnmarshalSummary (New disk_workloads) disk_workloads
           (set_copilotDir (New disk_workloads) ["proj"; "copilot"])
           true (line "application: acme")).
  - by vm_compute.
  - by vm_compute.
  - by vm_compute.
Defined.

(** ** The listing of an addons directory *)

(** X16: ReadAddonsDir lists every entry.  A successful call returns the
    names of all entries of the service's addons directory, regular files
    and directories alike, in ascending byte-wise order and each once; a
    failed call returns the error of reading that directory as it is. *)
Theorem X16_ReadAddonsDir_lists_every_entry svc ws fs cp ws1 r ws2 :
  CopilotDirPath ws fs = (Ok cp, ws1) →
  ReadAddonsDir svc ws fs = (r, ws2) →
  ws2 = ws1 ∧
  match r with
  | Ok names =>
      Stat fs (filepath.Join cp [svc; addonsDirName]) = Ok (Dir true) ∧
      Sorted String.le names ∧ NoDup names ∧
      ∀ x, x ∈ names ↔
           is_Some (nodes fs !! (filepath.Join cp [svc; addonsDirName] ++ [x]))
  | Err e => ReadDir fs (filepath.Join cp [svc; addonsDirName]) = Err e
  end.
Proof.
  intros Hcp. unfold ReadAddonsDir. rewrite Hcp.
  destruct (ReadDir fs _) as [files|e] eqn:Hr; intros [= <- <-];
    (split; [done|]); [|done].
  apply ReadDir_Ok in Hr as [Hd ->]. split_and!; [done| | |].
  - apply StronglySorted_Sorted, entries_names_sorted.
  - apply NoDup_entries.
  - intros x. split.
    + intros (f & -> & Hf)%list_elem_of_fmap.
      apply elem_of_entries in Hf as (n & Hn & _). by exists n.
    + intros [n Hn].
      apply (list_elem_of_fmap_2' Name _ (mkFileInfo x (is_dir n))); [|done].
      apply elem_of_entries. by exists n.
Qed.

Lemma X16_witness :
  let fs := disk ["proj"]
              [([], Dir true); (["proj"], Dir true);
               (["proj"; "copilot"], Dir true);
               (["proj"; "copilot"; "api"], Dir true);
               (["proj"; "copilot"; "api"; "addons"], Dir true);
               (["proj"; "copilot"; "api"; "addons"; "s3.yml"],
                File true (line "Resources: {}"));
               (["proj"; "copilot"; "api"; "addons"; "old"], Dir true)] in
  let ws1 := set_copilotDir (New fs) ["proj"; "copilot"] in
  let names := ["old"; "s3.yml"] in
  ReadAddonsDir "api" (New fs) fs = (Ok names, ws1) ∧
  ws1 = ws1 ∧
  Stat fs (filepath.Join ["proj"; "copilot"] ["api"; addonsDirName])
    = Ok (Dir true) ∧
  Sorted String.le names ∧ NoDup names ∧
  ∀ x, x ∈ names ↔
       is_Some (nodes fs !! (filepath.Join ["proj"; "copilot"]
                               ["api"; addonsDirName] ++ [x])).
Proof.
  intros fs ws1 names. split; [by vm_compute|].
  apply (X16_ReadAddonsDir_lists_every_entry "api" (New fs) fs
           ["proj"; "copilot"] ws1 (Ok names) ws1).
  - by vm_compute.
  - by vm_compute.
Defined.
